(** * GitHunt: date windows, repository search, bookmarks and RSS export

    A shallow embedding of the logic-bearing parts of the GitHunt client
    ([src/lib/api.ts], [hooks/useRepositories.ts], [stores/bookmarks.ts],
    [lib/rss.ts]) together with the properties of its specification.

    Conventions of the embedding:
    - a JavaScript string is the list of its UTF-16 code units ([jsstring]);
      [lit] embeds an ASCII literal;
    - a [Date] is its time value, the number of milliseconds since the epoch
      (UTC), as an unbounded [Z]; invalid dates are not modelled;
    - the local time zone is a fixed offset from UTC ([tz], in minutes), so
      daylight-saving transitions are outside the model;
    - [Map<number, string>] is a [gmap Z jsstring], [Set<number>] a [gset Z]. *)

From Stdlib Require Import ZArith List Lia Bool Ascii String Decimal DecimalN.
From stdpp Require Import gmap list fin_maps.

Open Scope Z_scope.

(* ===================================================================== *)
(** ** JavaScript strings *)
(* ===================================================================== *)

Module JS.

Definition jsstring := list N.

Definition lit (s : string) : jsstring :=
  map N_of_ascii (list_ascii_of_string s).

(** Character codes used below. *)
Definition c_zero : N := 48%N.
Definition c_dash : N := 45%N.
Definition c_amp : N := 38%N.
Definition c_lt : N := 60%N.
Definition c_gt : N := 62%N.
Definition c_quot : N := 34%N.
Definition c_apos : N := 39%N.

Definition isDigit (c : N) : bool := ((48 <=? c) && (c <=? 57))%N.

(** [String.prototype.padStart(len, c)] for a one-character filler. *)
Definition padStart (s : jsstring) (len : nat) (c : N) : jsstring :=
  repeat c (len - length s) ++ s.

(** [Number.prototype.toString()] on a non-negative integer. *)
Fixpoint uintChars (u : Decimal.uint) : jsstring :=
  match u with
  | Nil => []
  | D0 u => 48%N :: uintChars u
  | D1 u => 49%N :: uintChars u
  | D2 u => 50%N :: uintChars u
  | D3 u => 51%N :: uintChars u
  | D4 u => 52%N :: uintChars u
  | D5 u => 53%N :: uintChars u
  | D6 u => 54%N :: uintChars u
  | D7 u => 55%N :: uintChars u
  | D8 u => 56%N :: uintChars u
  | D9 u => 57%N :: uintChars u
  end.

Definition natToString (n : Z) : jsstring :=
  uintChars (N.to_uint (Z.to_N n)).

(** [Number.prototype.toString()] on an integer. *)
Definition numToString (n : Z) : jsstring :=
  if n <? 0 then c_dash :: natToString (Z.abs n) else natToString n.

(** A JavaScript string is truthy when it is not empty. *)
Definition truthy (s : jsstring) : bool :=
  match s with [] => false | _ => true end.

(** White space and line terminators, the code units removed by
    [String.prototype.trim]. *)
Definition isWhiteSpace (c : N) : bool :=
  ((c =? 9) || (c =? 10) || (c =? 11) || (c =? 12) || (c =? 13) ||
   (c =? 32) || (c =? 160) || (c =? 5760) ||
   ((8192 <=? c) && (c <=? 8202)) ||
   (c =? 8232) || (c =? 8233) || (c =? 8239) || (c =? 8287) ||
   (c =? 12288) || (c =? 65279))%N.

Fixpoint trimStart (s : jsstring) : jsstring :=
  match s with
  | c :: s' => if isWhiteSpace c then trimStart s' else s
  | [] => []
  end.

Definition trimEnd (s : jsstring) : jsstring := rev (trimStart (rev s)).

Definition trim (s : jsstring) : jsstring := trimEnd (trimStart s).

(** [s.replace(/c/g, r)]: every occurrence of the character [c] is
    replaced by the string [r]. *)
Fixpoint replaceAll (c : N) (r : jsstring) (s : jsstring) : jsstring :=
  match s with
  | [] => []
  | x :: s' => (if (x =? c)%N then r else [x]) ++ replaceAll c r s'
  end.

(** [Array.prototype.join]. *)
Fixpoint join (sep : jsstring) (l : list jsstring) : jsstring :=
  match l with
  | [] => []
  | [x] => x
  | x :: l' => x ++ sep ++ join sep l'
  end.

(** The dash characters: hyphen-minus, en dash and em dash. *)
Definition isDash (c : N) : bool := ((c =? 45) || (c =? 8211) || (c =? 8212))%N.

(** Number of dash characters in a string. *)
Definition dashCount (s : jsstring) : nat := length (List.filter isDash s).

(** The shape of a string: for each position, a digit or a given character. *)
Inductive charClass : Type := Digit | Exactly (c : N).

Definition inClass (k : charClass) (c : N) : bool :=
  match k with
  | Digit => isDigit c
  | Exactly c' => (c =? c')%N
  end.

Fixpoint hasShape (shape : list charClass) (s : jsstring) : bool :=
  match shape, s with
  | [], [] => true
  | k :: shape', c :: s' => inClass k c && hasShape shape' s'
  | _, _ => false
  end.

Definition digits (n : nat) : list charClass := repeat Digit n.
Definition exactly (s : string) : list charClass := map Exactly (lit s).

(** [sub] occurs in [s] as a contiguous substring. *)
Definition contains (sub s : jsstring) : Prop :=
  exists pre post, s = pre ++ sub ++ post.

End JS.
Import JS.

(* ===================================================================== *)
(** ** Time values and the proleptic Gregorian calendar *)
(* ===================================================================== *)

Module Time.

(** The time value of a [Date]: milliseconds since 1970-01-01T00:00:00Z. *)
Definition Date := Z.

Definition msPerSecond : Z := 1000.
Definition msPerMinute : Z := 60000.
Definition msPerHour : Z := 3600000.
Definition msPerDay : Z := 86400000.

Definition Day (t : Z) : Z := t / msPerDay.
Definition TimeWithinDay (t : Z) : Z := t mod msPerDay.

(** Day number of the first day of year [y]. *)
Definition DayFromYear (y : Z) : Z :=
  365 * (y - 1970) + (y - 1969) / 4 - (y - 1901) / 100 + (y - 1601) / 400.

Definition isLeapYear (y : Z) : bool :=
  (y mod 4 =? 0) && (negb (y mod 100 =? 0) || (y mod 400 =? 0)).

(** 1 in a leap year, 0 otherwise. *)
Definition InLeapYear (y : Z) : Z := if isLeapYear y then 1 else 0.

(** The year of a day number: the largest [y] with [DayFromYear y <= d],
    found next to the estimate given by the mean length of a year. *)
Definition yearFromDay (d : Z) : Z :=
  let y0 := 1970 + (d * 400) / 146097 in
  if d <? DayFromYear y0 then y0 - 1
  else if DayFromYear (y0 + 1) <=? d then y0 + 1
  else y0.

(** Month (0..11) and day of month from the day within the year. *)
Definition monthFromDayInYear (leap dwy : Z) : Z :=
  if dwy <? 31 then 0
  else if dwy <? 59 + leap then 1
  else if dwy <? 90 + leap then 2
  else if dwy <? 120 + leap then 3
  else if dwy <? 151 + leap then 4
  else if dwy <? 181 + leap then 5
  else if dwy <? 212 + leap then 6
  else if dwy <? 243 + leap then 7
  else if dwy <? 273 + leap then 8
  else if dwy <? 304 + leap then 9
  else if dwy <? 334 + leap then 10
  else 11.

(** Number of days of the year before month [m] (0..11). *)
Definition daysBeforeMonth (leap m : Z) : Z :=
  match m with
  | 0 => 0
  | 1 => 31
  | 2 => 59 + leap
  | 3 => 90 + leap
  | 4 => 120 + leap
  | 5 => 151 + leap
  | 6 => 181 + leap
  | 7 => 212 + leap
  | 8 => 243 + leap
  | 9 => 273 + leap
  | 10 => 304 + leap
  | _ => 334 + leap
  end.

Definition YearFromTime (t : Z) : Z := yearFromDay (Day t).

Definition DayWithinYear (t : Z) : Z := Day t - DayFromYear (YearFromTime t).

(** Months are numbered from 0 (January) to 11 (December). *)
Definition MonthFromTime (t : Z) : Z :=
  monthFromDayInYear (InLeapYear (YearFromTime t)) (DayWithinYear t).

Definition DateFromTime (t : Z) : Z :=
  DayWithinYear t
    - daysBeforeMonth (InLeapYear (YearFromTime t)) (MonthFromTime t) + 1.

Definition HourFromTime (t : Z) : Z := (t / msPerHour) mod 24.
Definition MinFromTime (t : Z) : Z := (t / msPerMinute) mod 60.
Definition SecFromTime (t : Z) : Z := (t / msPerSecond) mod 60.
Definition msFromTime (t : Z) : Z := t mod msPerSecond.

Definition MakeTime (h m s ms : Z) : Z :=
  h * msPerHour + m * msPerMinute + s * msPerSecond + ms.

(** [MakeDay] accepts any month and day: months outside 0..11 carry into
    the year, days outside the month carry into neighbouring months. *)
Definition MakeDay (year month date : Z) : Z :=
  let ym := year + month / 12 in
  let mn := month mod 12 in
  DayFromYear ym + daysBeforeMonth (InLeapYear ym) mn + date - 1.

Definition MakeDate (day time : Z) : Z := day * msPerDay + time.

Section Zone.

(** Offset of local time from UTC, in minutes (positive east of Greenwich).
    The local zone is one fixed offset: it has no clock changes, so no
    local time is skipped or repeated and every local day has 24 hours.
    A zone with daylight saving time is outside this model; the
    statements whose figures depend on that say so. *)
Variable tz : Z.

Definition LocalTime (t : Z) : Z := t + tz * msPerMinute.
Definition UTC (t : Z) : Z := t - tz * msPerMinute.

(** *** [Date.prototype] getters and setters (local time) *)

Definition getFullYear (d : Date) : Z := YearFromTime (LocalTime d).
Definition getMonth (d : Date) : Z := MonthFromTime (LocalTime d).
Definition getDate (d : Date) : Z := DateFromTime (LocalTime d).
Definition getHours (d : Date) : Z := HourFromTime (LocalTime d).
Definition getMinutes (d : Date) : Z := MinFromTime (LocalTime d).
Definition getSeconds (d : Date) : Z := SecFromTime (LocalTime d).

Definition setDate (d : Date) (dt : Z) : Date :=
  let t := LocalTime d in
  UTC (MakeDate (MakeDay (YearFromTime t) (MonthFromTime t) dt) (TimeWithinDay t)).

Definition setMonth (d : Date) (month dt : Z) : Date :=
  let t := LocalTime d in
  UTC (MakeDate (MakeDay (YearFromTime t) month dt) (TimeWithinDay t)).

Definition setFullYear (d : Date) (year month dt : Z) : Date :=
  let t := LocalTime d in
  UTC (MakeDate (MakeDay year month dt) (TimeWithinDay t)).

Definition setHours (d : Date) (h m s ms : Z) : Date :=
  let t := LocalTime d in
  UTC (MakeDate (Day t) (MakeTime h m s ms)).

(** *** date-fns *)

Definition addDays (date : Date) (amount : Z) : Date :=
  if amount =? 0 then date else setDate date (getDate date + amount).

Definition subDays (date : Date) (amount : Z) : Date := addDays date (- amount).

Definition addWeeks (date : Date) (amount : Z) : Date := addDays date (amount * 7).

Definition subWeeks (date : Date) (amount : Z) : Date := addWeeks date (- amount).

Definition addMonths (date : Date) (amount : Z) : Date :=
  if amount =? 0 then date else
  let dayOfMonth := getDate date in
  let endOfDesiredMonth := setMonth date (getMonth date + amount + 1) 0 in
  let daysInMonth := getDate endOfDesiredMonth in
  if dayOfMonth >=? daysInMonth then endOfDesiredMonth
  else setFullYear date (getFullYear endOfDesiredMonth)
                        (getMonth endOfDesiredMonth) dayOfMonth.

Definition subMonths (date : Date) (amount : Z) : Date := addMonths date (- amount).

Definition startOfDay (date : Date) : Date := setHours date 0 0 0 0.

Definition endOfDay (date : Date) : Date := setHours date 23 59 59 999.

(** [addLeadingZeros(number, targetLength)]. *)
Definition addLeadingZeros (number : Z) (targetLength : nat) : jsstring :=
  let sign := if number <? 0 then [c_dash] else [] in
  sign ++ padStart (natToString (Z.abs number)) targetLength c_zero.

Definition monthAbbreviated (m : Z) : jsstring :=
  lit (nth (Z.to_nat m)
         ["Jan"; "Feb"; "Mar"; "Apr"; "May"; "Jun";
          "Jul"; "Aug"; "Sep"; "Oct"; "Nov"; "Dec"]%string EmptyString).

Definition monthWide (m : Z) : jsstring :=
  lit (nth (Z.to_nat m)
         ["January"; "February"; "March"; "April"; "May"; "June"; "July";
          "August"; "September"; "October"; "November"; "December"]%string
         EmptyString).

(** The tokens of the format patterns used by the application; quoted
    text and punctuation are literal. *)
Inductive token : Type :=
| Tyyyy | TMM | TMMM | TMMMM | Td | Tdd | THH | Tmm | Tss
| Tlit (s : string).

Definition formatToken (date : Date) (tk : token) : jsstring :=
  match tk with
  | Tyyyy =>
      let signedYear := getFullYear date in
      let year := if signedYear >? 0 then signedYear else 1 - signedYear in
      addLeadingZeros year 4
  | TMM => addLeadingZeros (getMonth date + 1) 2
  | TMMM => monthAbbreviated (getMonth date)
  | TMMMM => monthWide (getMonth date)
  | Td => addLeadingZeros (getDate date) 1
  | Tdd => addLeadingZeros (getDate date) 2
  | THH => addLeadingZeros (getHours date) 2
  | Tmm => addLeadingZeros (getMinutes date) 2
  | Tss => addLeadingZeros (getSeconds date) 2
  | Tlit s => lit s
  end.

Definition format (date : Date) (pattern : list token) : jsstring :=
  concat (map (formatToken date) pattern).

End Zone.

(** [Date.prototype.toISOString]: the UTC fields with millisecond
    precision; years outside 0..9999 are written with a sign and at least
    six digits. *)
Definition isoYear (y : Z) : jsstring :=
  if (0 <=? y) && (y <=? 9999) then padStart (natToString y) 4 c_zero
  else (if y <? 0 then lit "-" else lit "+")
         ++ padStart (natToString (Z.abs y)) 6 c_zero.

Definition pad2 (n : Z) : jsstring := padStart (natToString n) 2 c_zero.
Definition pad3 (n : Z) : jsstring := padStart (natToString n) 3 c_zero.

Definition toISOString (t : Date) : jsstring :=
  isoYear (YearFromTime t) ++ lit "-" ++ pad2 (MonthFromTime t + 1)
    ++ lit "-" ++ pad2 (DateFromTime t)
    ++ lit "T" ++ pad2 (HourFromTime t)
    ++ lit ":" ++ pad2 (MinFromTime t)
    ++ lit ":" ++ pad2 (SecFromTime t)
    ++ lit "." ++ pad3 (msFromTime t) ++ lit "Z".

End Time.
Import Time.

(* ===================================================================== *)
(** ** types/github.ts *)
(* ===================================================================== *)

Record Owner := {
  login : jsstring;
  avatar_url : jsstring;
  owner_html_url : jsstring
}.

Record Repository := {
  id : Z;
  name : jsstring;
  full_name : jsstring;
  description : option jsstring;
  html_url : jsstring;
  stargazers_count : Z;
  forks_count : Z;
  open_issues_count : Z;
  language : option jsstring;
  owner : Owner;
  created_at : jsstring;
  updated_at : jsstring
}.

Record GitHubSearchResponse := {
  total_count : Z;
  incomplete_results : bool;
  items : list Repository
}.

Record DateRange := { start : Date; end_ : Date }.

Record RepositoryGroup := {
  group_start : jsstring;
  group_end : jsstring;
  repositories : list Repository
}.

(** stores/preferences.ts *)
Inductive DateJump : Type := day | week | month.

Definition dateJumpName (dateJump : DateJump) : jsstring :=
  match dateJump with
  | day => lit "day"
  | week => lit "week"
  | month => lit "month"
  end.

(** [x ? a : b] and [x || b] on an optional string: [undefined], [null]
    and the empty string are falsy. *)
Definition truthyOpt (x : option jsstring) : bool :=
  match x with Some s => truthy s | None => false end.

(* ===================================================================== *)
(** ** lib/api.ts *)
(* ===================================================================== *)

Module Api.

Definition API_URL : jsstring := lit "https://api.github.com/search/repositories".

Record FetchParams := {
  p_language : option jsstring;
  p_dateRange : DateRange;
  p_token : option jsstring
}.

(** The request handed to [fetch]: the endpoint, the search parameters set
    on the URL and the headers. *)
Record Request := {
  url : jsstring;
  q : jsstring;
  sort : jsstring;
  order : jsstring;
  per_page : jsstring;
  Accept : jsstring;
  Authorization : option jsstring
}.

(** The JSON body of a failed call, an object with an optional [message]. *)
Record ErrorBody := { message : option jsstring }.

(** What [fetch] resolves to. [Success] is a response with [response.ok],
    [Failure] one without; the body is [None] when [response.json()]
    rejects because the body is not JSON. *)
Inductive Response : Type :=
| Success (status : Z) (body : option GitHubSearchResponse)
| Failure (status : Z) (body : option ErrorBody).

Inductive Error : Type :=
| ErrorMessage (msg : jsstring)   (* [new Error(msg)] *)
| JsonSyntaxError.                (* rejection of [response.json()] *)

(** The settled state of a promise. *)
Inductive Outcome (A : Type) : Type :=
| Fulfilled (a : A)
| Rejected (e : Error).
Arguments Fulfilled {A} a.
Arguments Rejected {A} e.

(** [yyyy-MM-dd'T'HH:mm:ss'Z'] *)
Definition isoPattern : list token :=
  [Tyyyy; Tlit "-"; TMM; Tlit "-"; Tdd; Tlit "T";
   THH; Tlit ":"; Tmm; Tlit ":"; Tss; Tlit "Z"].

Section Zone.
Variable tz : Z.

Definition formatDateRange (dateRange : DateRange) : jsstring :=
  let start := format tz (start dateRange) isoPattern in
  let end_ := format tz (end_ dateRange) isoPattern in
  lit "created:" ++ start ++ lit ".." ++ end_.

Definition buildRequest (params : FetchParams) : Request :=
  let dateQuery := formatDateRange (p_dateRange params) in
  let languageQuery :=
    match p_language params with
    | Some l => if truthy l then lit "language:" ++ l ++ lit " " else []
    | None => []
    end in
  let query := languageQuery ++ dateQuery in
  {| url := API_URL;
     q := query;
     sort := lit "stars";
     order := lit "desc";
     per_page := lit "25";
     Accept := lit "application/vnd.github.v3+json";
     Authorization :=
       match p_token params with
       | Some t => if truthy t then Some (lit "Bearer " ++ t) else None
       | None => None
       end |}.

(** [response.json().catch(() => ({}))] followed by
    [error.message || `GitHub API error: ${response.status}`]. *)
Definition errorMessage (status : Z) (body : option ErrorBody) : jsstring :=
  let error := match body with Some e => e | None => {| message := None |} end in
  if truthyOpt (message error)
  then match message error with Some m => m | None => [] end
  else lit "GitHub API error: " ++ numToString status.

(** What becomes of the response: a failure is thrown as an [Error], the
    body of a success is the result. *)
Definition settle (response : Response) : Outcome GitHubSearchResponse :=
  match response with
  | Failure status body => Rejected (ErrorMessage (errorMessage status body))
  | Success _ (Some r) => Fulfilled r
  | Success _ None => Rejected JsonSyntaxError
  end.

Definition fetchRepositories (fetch : Request -> Response) (params : FetchParams)
  : Outcome GitHubSearchResponse :=
  settle (fetch (buildRequest params)).

(** [now] is the value of [new Date()] when the function runs. *)
Definition getDateRange (now : Date) (dateJump : DateJump) (offset : Z) : DateRange :=
  match dateJump with
  | day =>
      {| start := startOfDay tz (subDays tz now offset);
         end_ := endOfDay tz (subDays tz now offset) |}
  | week =>
      {| start := startOfDay tz (subWeeks tz now (offset + 1));
         end_ := endOfDay tz (subWeeks tz now offset) |}
  | month =>
      {| start := startOfDay tz (subMonths tz now (offset + 1));
         end_ := endOfDay tz (subMonths tz now offset) |}
  end.

Definition formatDateRangeLabel (dateRange : DateRange) (dateJump : DateJump) : jsstring :=
  match dateJump with
  | day => format tz (start dateRange) [TMMMM; Tlit " "; Td; Tlit ", "; Tyyyy]
  | _ =>
      format tz (start dateRange) [TMMM; Tlit " "; Td]
        ++ lit " - "
        ++ format tz (end_ dateRange) [TMMM; Tlit " "; Td; Tlit ", "; Tyyyy]
  end.

End Zone.
End Api.
Import Api.

(* ===================================================================== *)
(** ** hooks/useRepositories.ts *)
(* ===================================================================== *)

Module UseRepositories.

(** The preferences read by the hook. *)
Record Preferences := {
  pref_language : jsstring;
  pref_dateJump : DateJump;
  pref_token : option jsstring
}.

Section Zone.
Variable tz : Z.
Variable fetch : Request -> Response.
Variable prefs : Preferences.

Definition queryFn (now : Date) (pageParam : Z) : Outcome RepositoryGroup :=
  let dateRange := getDateRange tz now (pref_dateJump prefs) pageParam in
  match fetchRepositories tz fetch
          {| p_language := Some (pref_language prefs);
             p_dateRange := dateRange;
             p_token := pref_token prefs |} with
  | Rejected e => Rejected e
  | Fulfilled response =>
      Fulfilled {| group_start := toISOString (start dateRange);
                   group_end := toISOString (end_ dateRange);
                   repositories := items response |}
  end.

(** The data of an infinite query: the pages fetched so far with the page
    parameter each was fetched for, and the error of the last fetch. *)
Record InfiniteData := {
  pages : list RepositoryGroup;
  pageParams : list Z;
  error : option Error
}.

Definition initialData : InfiniteData :=
  {| pages := []; pageParams := []; error := None |}.

Definition initialPageParam : Z := 0.

Definition getNextPageParam (allPages : list RepositoryGroup) : Z :=
  Z.of_nat (length allPages).

(** The parameter of the next page: [initialPageParam] for the first page,
    [getNextPageParam] afterwards. *)
Definition nextPageParam (data : InfiniteData) : Z :=
  match pages data with
  | [] => initialPageParam
  | _ => getNextPageParam (pages data)
  end.

(** One fetch of the next page, run when the clock reads [now]: a page
    that resolves is appended, a failure leaves the pages as they are. *)
Definition fetchNextPage (now : Date) (data : InfiniteData) : InfiniteData :=
  let pageParam := nextPageParam data in
  match queryFn now pageParam with
  | Fulfilled page =>
      {| pages := pages data ++ [page];
         pageParams := pageParams data ++ [pageParam];
         error := None |}
  | Rejected e =>
      {| pages := pages data; pageParams := pageParams data; error := Some e |}
  end.

(** Fetching one page at each of the given clock readings, in order. *)
Definition fetchPages (clock : list Date) (data : InfiniteData) : InfiniteData :=
  fold_left (fun d now => fetchNextPage now d) clock data.

End Zone.

Definition groupKey (g : RepositoryGroup) : jsstring * jsstring :=
  (group_start g, group_end g).

End UseRepositories.
Import UseRepositories.

(* ===================================================================== *)
(** ** stores/bookmarks.ts *)
(* ===================================================================== *)

Module Bookmarks.

Record BookmarksState := {
  bookmarks : list Repository;
  bookmarkedIds : gset Z;
  notes : gmap Z jsstring;
  lastVisit : option jsstring;
  seenRepoIds : gset Z
}.

Definition initialState : BookmarksState :=
  {| bookmarks := []; bookmarkedIds := ∅; notes := ∅;
     lastVisit := None; seenRepoIds := ∅ |}.

Definition addBookmark (repo : Repository) (state : BookmarksState) : BookmarksState :=
  {| bookmarks := repo :: bookmarks state;
     bookmarkedIds := bookmarkedIds state ∪ {[ id repo ]};
     notes := notes state;
     lastVisit := lastVisit state;
     seenRepoIds := seenRepoIds state |}.

Definition removeBookmark (repoId : Z) (state : BookmarksState) : BookmarksState :=
  let newNotes := delete repoId (notes state) in
  {| bookmarks := List.filter (fun r => negb (id r =? repoId)) (bookmarks state);
     bookmarkedIds := filter (fun i => i ≠ repoId) (bookmarkedIds state);
     notes := newNotes;
     lastVisit := lastVisit state;
     seenRepoIds := seenRepoIds state |}.

Definition isBookmarked (repoId : Z) (state : BookmarksState) : bool :=
  bool_decide (repoId ∈ bookmarkedIds state).

Definition toggleBookmark (repo : Repository) (state : BookmarksState) : BookmarksState :=
  if isBookmarked (id repo) state
  then removeBookmark (id repo) state
  else addBookmark repo state.

Definition setNote (repoId : Z) (note : jsstring) (state : BookmarksState) : BookmarksState :=
  let newNotes :=
    if truthy (trim note)
    then <[repoId := note]> (notes state)
    else delete repoId (notes state) in
  {| bookmarks := bookmarks state;
     bookmarkedIds := bookmarkedIds state;
     notes := newNotes;
     lastVisit := lastVisit state;
     seenRepoIds := seenRepoIds state |}.

Definition getNote (repoId : Z) (state : BookmarksState) : option jsstring :=
  notes state !! repoId.

Definition markAsSeen (repoIds : list Z) (state : BookmarksState) : BookmarksState :=
  {| bookmarks := bookmarks state;
     bookmarkedIds := bookmarkedIds state;
     notes := notes state;
     lastVisit := lastVisit state;
     seenRepoIds := seenRepoIds state ∪ list_to_set repoIds |}.

Definition isNew (repoId : Z) (state : BookmarksState) : bool :=
  negb (bool_decide (repoId ∈ seenRepoIds state)).

(** The ids of the repositories in the bookmarks list. *)
Definition listedIds (state : BookmarksState) : gset Z :=
  list_to_set (map id (bookmarks state)).

(** The store invariant: the id set mirrors the list, and notes are kept
    for bookmarked repositories only. *)
Definition idsMirrorList (state : BookmarksState) : Prop :=
  bookmarkedIds state = listedIds state.

Definition notesOnBookmarked (state : BookmarksState) : Prop :=
  dom (notes state) ⊆ bookmarkedIds state.

Definition storeInvariant (state : BookmarksState) : Prop :=
  idsMirrorList state ∧ notesOnBookmarked state.

(** A string that is empty or holds white space only. *)
Definition blank (note : jsstring) : bool := forallb isWhiteSpace note.

End Bookmarks.
Import Bookmarks.

(* ===================================================================== *)
(** ** lib/rss.ts *)
(* ===================================================================== *)

Module Rss.

Record RSSOptions := {
  languages : list jsstring;
  dateJump : DateJump;
  baseUrl : option jsstring
}.

Definition escapeXml (text : jsstring) : jsstring :=
  replaceAll c_apos (lit "&apos;")
    (replaceAll c_quot (lit "&quot;")
      (replaceAll c_gt (lit "&gt;")
        (replaceAll c_lt (lit "&lt;")
          (replaceAll c_amp (lit "&amp;") text)))).

(** The entity reference of one character: [escapeXml] read as a single
    pass over the text. *)
Definition escapeChar (c : N) : jsstring :=
  if (c =? c_amp)%N then lit "&amp;"
  else if (c =? c_lt)%N then lit "&lt;"
  else if (c =? c_gt)%N then lit "&gt;"
  else if (c =? c_quot)%N then lit "&quot;"
  else if (c =? c_apos)%N then lit "&apos;"
  else [c].

Definition entities : list jsstring :=
  [lit "&amp;"; lit "&lt;"; lit "&gt;"; lit "&quot;"; lit "&apos;"].

Definition isSpecial (c : N) : bool :=
  ((c =? c_amp) || (c =? c_lt) || (c =? c_gt) || (c =? c_quot) || (c =? c_apos))%N.

(** Escaped text: plain characters, none of the five special ones, and
    entity references. *)
Inductive escaped : jsstring -> Prop :=
| escaped_nil : escaped []
| escaped_plain (c : N) (s : jsstring) :
    isSpecial c = false -> escaped s -> escaped (c :: s)
| escaped_entity (e s : jsstring) :
    In e entities -> escaped s -> escaped (e ++ s).

(** What the host environment supplies: locale-dependent number
    formatting, the UTC rendering of a repository's creation date, and the
    UTC rendering of the current time. *)
Record Host := {
  toLocaleString : Z -> jsstring;
  createdUTCString : jsstring -> jsstring;
  nowUTCString : jsstring
}.

(** The pieces of the template literals: a line break followed by the
    indentation of the next line, text between double quotes, and an
    element with its opening and closing tag. *)
Definition indent (n : nat) : jsstring := 10%N :: repeat 32%N n.

Definition quoted (s : string) : jsstring := [c_quot] ++ lit s ++ [c_quot].

Definition element (tag : string) (content : jsstring) : jsstring :=
  lit "<" ++ lit tag ++ lit ">" ++ content ++ lit "</" ++ lit tag ++ lit ">".

(** The emoji of the item description, as UTF-16 code units. *)
Definition star : jsstring := [11088%N].
Definition forkAndKnife : jsstring := [55356%N; 57204%N].
Definition laptop : jsstring := [55357%N; 56507%N].

Section Feed.
Variable host : Host.

Definition feedTitle (languages : list jsstring) : jsstring :=
  if (0 <? length languages)%nat
  then lit "GitHunt - " ++ join (lit ", ") languages
  else lit "GitHunt - All Languages".

Definition feedDescription (languages : list jsstring) (dateJump : DateJump) : jsstring :=
  lit "Trending GitHub repositories"
    ++ (if (0 <? length languages)%nat
        then lit " for " ++ join (lit ", ") languages else [])
    ++ lit " (" ++ dateJumpName dateJump ++ lit "ly)".

Definition feedItem (repo : Repository) : jsstring :=
  indent 4 ++ lit "<item>"
    ++ indent 6 ++ element "title" (escapeXml (full_name repo))
    ++ indent 6 ++ element "link" (html_url repo)
    ++ indent 6 ++ lit "<description><![CDATA["
    ++ (if truthyOpt (description repo)
        then default [] (description repo)
        else lit "No description")
    ++ indent 0 ++ indent 0
    ++ star ++ lit " " ++ toLocaleString host (stargazers_count repo)
    ++ lit " stars | " ++ forkAndKnife ++ lit " "
    ++ toLocaleString host (forks_count repo) ++ lit " forks"
    ++ (if truthyOpt (language repo)
        then lit " | " ++ laptop ++ lit " " ++ default [] (language repo)
        else [])
    ++ lit "]]></description>"
    ++ indent 6 ++ lit "<guid isPermaLink=" ++ quoted "true" ++ lit ">"
    ++ html_url repo ++ lit "</guid>"
    ++ indent 6 ++ element "pubDate" (createdUTCString host (created_at repo))
    ++ indent 6 ++ element "author" (escapeXml (login (owner repo)))
    ++ indent 4 ++ lit "</item>".

Definition generateRSSFeed (repositories : list Repository) (options : RSSOptions)
  : jsstring :=
  let base := default (lit "https://githunt.dev") (baseUrl options) in
  let title := feedTitle (languages options) in
  let description := feedDescription (languages options) (dateJump options) in
  let items := join [] (map feedItem repositories) in
  lit "<?xml version=" ++ quoted "1.0" ++ lit " encoding=" ++ quoted "UTF-8"
    ++ lit "?>"
    ++ indent 0 ++ lit "<rss version=" ++ quoted "2.0" ++ lit " xmlns:atom="
    ++ quoted "http://www.w3.org/2005/Atom" ++ lit ">"
    ++ indent 2 ++ lit "<channel>"
    ++ indent 4 ++ element "title" (escapeXml title)
    ++ indent 4 ++ element "link" base
    ++ indent 4 ++ element "description" (escapeXml description)
    ++ indent 4 ++ element "language" (lit "en-us")
    ++ indent 4 ++ element "lastBuildDate" (nowUTCString host)
    ++ indent 4 ++ lit "<atom:link href=" ++ [c_quot] ++ base ++ lit "/rss"
    ++ [c_quot] ++ lit " rel=" ++ quoted "self" ++ lit " type="
    ++ quoted "application/rss+xml" ++ lit "/>"
    ++ indent 4 ++ items
    ++ indent 2 ++ lit "</channel>"
    ++ indent 0 ++ lit "</rss>".

End Feed.
End Rss.
Import Rss.

(* ===================================================================== *)
(** ** Auxiliary definitions for the proofs *)
(* ===================================================================== *)

Module Support.

(** [allPow f k z] checks [f] on the [2 ^ k] integers from [z] on. *)
Fixpoint allPow (f : Z -> bool) (k : nat) (z : Z) : bool :=
  match k with
  | O => f z
  | S k' => allPow f k' z && allPow f k' (z + 2 ^ Z.of_nat k')
  end.

(** [allBelow f n] checks [f] on [0 .. n - 1]. *)
Definition allBelow (f : Z -> bool) (n : Z) : bool :=
  allPow (fun z => (n <=? z) || f z) (Z.to_nat (Z.log2_up n)) 0.

(** The day number of the first day of a month, months counted from
    January of year 0: month [j] is month [j mod 12] of year [j / 12]. *)
Definition firstOfMonth (j : Z) : Z := MakeDay 0 j 1.

(** The month, counted from January of year 0, that a time value lies in. *)
Definition monthIndex (t : Z) : Z := 12 * YearFromTime t + MonthFromTime t.

(** Number of days of month [j]. *)
Definition monthLength (j : Z) : Z := firstOfMonth (j + 1) - firstOfMonth j.

(** The local calendar day of a date, as a day number. *)
Definition localDay (tz : Z) (d : Date) : Z := Day (LocalTime tz d).

(** The month of a date, counted from January of year 0, in local time. *)
Definition localMonth (tz : Z) (d : Date) : Z := monthIndex (LocalTime tz d).

(** 2025-11-02T14:30:15.123Z, the clock reading used in the examples. *)
Definition sampleNow : Date := 1762093815123.

(** [dddd-dd-ddTdd:dd:ddZ]: an ISO 8601 timestamp in UTC notation with
    second precision. *)
Definition isoSecondsShape : list charClass :=
  digits 4 ++ exactly "-" ++ digits 2 ++ exactly "-" ++ digits 2
    ++ exactly "T" ++ digits 2 ++ exactly ":" ++ digits 2
    ++ exactly ":" ++ digits 2 ++ exactly "Z".

(** Follows the spec's words, not the source: the ISO 8601 timestamp of
    an instant in UTC, with second precision and a trailing Z. It is
    [toISOString] without the milliseconds. *)
Definition isoUTCSeconds (t : Date) : jsstring :=
  isoYear (YearFromTime t) ++ lit "-" ++ pad2 (MonthFromTime t + 1)
    ++ lit "-" ++ pad2 (DateFromTime t)
    ++ lit "T" ++ pad2 (HourFromTime t)
    ++ lit ":" ++ pad2 (MinFromTime t)
    ++ lit ":" ++ pad2 (SecFromTime t) ++ lit "Z".

(** The years that [yyyy] prints with exactly four digits. *)
Definition fourDigitYear (tz : Z) (d : Date) : Prop :=
  -9998 <= getFullYear tz d <= 9999.

(** The message carried by the body of a failed call: the [message] of
    the JSON object when there is one and it is not empty. *)
Definition upstreamMessage (body : option ErrorBody) : option jsstring :=
  match body with
  | Some e =>
      match message e with
      | Some m => if truthy m then Some m else None
      | None => None
      end
  | None => None
  end.

(** The group of the window at [offset], holding [repos]. *)
Definition windowGroup (tz : Z) (now : Date) (dateJump : DateJump) (offset : Z)
    (repos : list Repository) : RepositoryGroup :=
  let r := getDateRange tz now dateJump offset in
  {| group_start := toISOString (start r);
     group_end := toISOString (end_ r);
     repositories := repos |}.

(** An upstream that fails every call with the given status and body. *)
Definition failingUpstream (status : Z) (body : option ErrorBody) : Request -> Response :=
  fun _ => Failure status body.

(** An upstream that answers every query with the same result. *)
Definition fixedUpstream (result : GitHubSearchResponse) : Request -> Response :=
  fun _ => Success 200 (Some result).

Definition sampleRepository (n : Z) : Repository :=
  {| id := n; name := lit "repo"; full_name := lit "owner/repo";
     description := None; html_url := lit "https://github.com/owner/repo";
     stargazers_count := 10; forks_count := 1; open_issues_count := 0;
     language := Some (lit "Rust");
     owner := {| login := lit "owner"; avatar_url := [];
                 owner_html_url := lit "https://github.com/owner" |};
     created_at := lit "2025-11-01T00:00:00Z";
     updated_at := lit "2025-11-01T00:00:00Z" |}.

Definition fiveItems : GitHubSearchResponse :=
  {| total_count := 5; incomplete_results := false;
     items := map sampleRepository [1; 2; 3; 4; 5] |}.

Definition samplePreferences : Preferences :=
  {| pref_language := lit "rust"; pref_dateJump := week; pref_token := None |}.

Definition sampleParams : FetchParams :=
  {| p_language := None;
     p_dateRange := getDateRange 0 sampleNow week 0;
     p_token := None |}.

End Support.
Import Support.

(* ===================================================================== *)
(** ** [new Date(string)] on the strings written by [toISOString] *)
(* ===================================================================== *)

Module DateParse.

Fixpoint digitsValueAcc (s : jsstring) (acc : Z) : option Z :=
  match s with
  | [] => Some acc
  | c :: s' =>
      if isDigit c then digitsValueAcc s' (10 * acc + Z.of_N (c - 48)) else None
  end.

(** The number written by a string of digits. *)
Definition digitsValue (s : jsstring) : Z := default 0 (digitsValueAcc s 0).

(** [s.slice(from, to)] for [0 <= from <= to]. *)
Definition slice (from to : nat) (s : jsstring) : jsstring :=
  firstn (to - from) (skipn from s).

(** [-dd-ddTdd:dd:dd.dddZ], what follows the year. *)
Definition isoTailShape : list charClass :=
  exactly "-" ++ digits 2 ++ exactly "-" ++ digits 2
    ++ exactly "T" ++ digits 2 ++ exactly ":" ++ digits 2
    ++ exactly ":" ++ digits 2 ++ exactly "." ++ digits 3 ++ exactly "Z".

(** The largest time value of a [Date], 100,000,000 days from the epoch. *)
Definition maxTime : Z := 8640000000000000.

Definition validTime (t : Z) : Prop := Z.abs t <= maxTime.

(** The date-time string format in its UTC form, the one [toISOString]
    writes: a year of four digits, or of six digits with a sign, then
    month, day, time and milliseconds, then [Z]. A field out of range, the
    year [-000000] and a time value beyond [maxTime] give an invalid date
    ([None]). Only this form is modelled: the hook parses nothing but the
    strings [toISOString] wrote, and a string of another form, which an
    engine may accept, is [None] here. *)
Definition parseDate (s : jsstring) : option Date :=
  let '(sign, width, body) :=
    match s with
    | c :: s' =>
        if (c =? 43)%N then (1, 6%nat, s')
        else if (c =? 45)%N then (-1, 6%nat, s')
        else (1, 4%nat, s)
    | [] => (1, 4%nat, s)
    end in
  let year := firstn width body in
  let tail := skipn width body in
  if hasShape (digits width) year && hasShape isoTailShape tail then
    let y := sign * digitsValue year in
    let mo := digitsValue (slice 1 3 tail) in
    let d := digitsValue (slice 4 6 tail) in
    let h := digitsValue (slice 7 9 tail) in
    let mi := digitsValue (slice 10 12 tail) in
    let sec := digitsValue (slice 13 15 tail) in
    let ms := digitsValue (slice 16 19 tail) in
    let t := MakeDate (MakeDay y (mo - 1) d) (MakeTime h mi sec ms) in
    if (1 <=? mo) && (mo <=? 12) && (1 <=? d) && (d <=? 31)
       && (h <=? 23) && (mi <=? 59) && (sec <=? 59)
       && negb ((sign =? -1) && (y =? 0)) && (Z.abs t <=? maxTime)
    then Some t
    else None
  else None.

End DateParse.
Import DateParse.

(* ===================================================================== *)
(** ** hooks/useRepositories.ts: the label of a group *)
(* ===================================================================== *)

Module GroupLabel.

(** [useFormattedDateLabel]: the two strings of the group are parsed
    back into dates and formatted. [format] throws on an invalid date
    ([None]); the label of a day group does not read the end. *)
Definition useFormattedDateLabel (tz : Z) (dateJump : DateJump)
    (group : RepositoryGroup) : option jsstring :=
  let start := parseDate (group_start group) in
  let end_ := parseDate (group_end group) in
  match dateJump with
  | day =>
      match start with
      | Some s =>
          Some (formatDateRangeLabel tz
                  {| start := s; end_ := default s end_ |} dateJump)
      | None => None
      end
  | _ =>
      match start, end_ with
      | Some s, Some e =>
          Some (formatDateRangeLabel tz {| start := s; end_ := e |} dateJump)
      | _, _ => None
      end
  end.

(** The pages of the windows of offsets [0 .. n - 1], each holding the
    items of [result]. *)
Definition windowPages (tz : Z) (prefs : Preferences)
    (result : GitHubSearchResponse) (now : Date) (n : nat) : list RepositoryGroup :=
  map (fun k => windowGroup tz now (pref_dateJump prefs) (Z.of_nat k) (items result))
      (seq 0 n).

End GroupLabel.
Import GroupLabel.

(* ===================================================================== *)
(** ** stores/preferences.ts *)
(* ===================================================================== *)

Module PreferencesStore.

Inductive Theme : Type := theme_light | theme_dark | theme_system.
Inductive ViewType : Type := view_list | view_grid.
Inductive FontFamily : Type := font_geist | font_inter | font_system | font_mono.
Inductive FontSize : Type := size_small | size_medium | size_large.
Inductive LineHeight : Type := height_compact | height_normal | height_relaxed.
Inductive Density : Type := density_compact | density_comfortable | density_spacious.

Record PreferencesState := {
  theme : Theme;
  language : jsstring;
  languages : list jsstring;
  viewType : ViewType;
  dateJump : DateJump;
  token : option jsstring;
  fontSize : FontSize;
  fontFamily : FontFamily;
  lineHeight : LineHeight;
  density : Density;
  reducedMotion : bool;
  highContrast : bool;
  dimSeenRepos : bool
}.

Definition defaults : PreferencesState :=
  {| theme := theme_system; language := []; languages := [];
     viewType := view_list; dateJump := week; token := None;
     fontSize := size_medium; fontFamily := font_geist;
     lineHeight := height_normal; density := density_comfortable;
     reducedMotion := false; highContrast := false; dimSeenRepos := false |}.

(** [set({ languages })]: the other fields are kept. *)
Definition withLanguages (ls : list jsstring) (s : PreferencesState) : PreferencesState :=
  {| theme := theme s; language := language s; languages := ls;
     viewType := viewType s; dateJump := dateJump s; token := token s;
     fontSize := fontSize s; fontFamily := fontFamily s;
     lineHeight := lineHeight s; density := density s;
     reducedMotion := reducedMotion s; highContrast := highContrast s;
     dimSeenRepos := dimSeenRepos s |}.

Definition withTheme (t : Theme) (s : PreferencesState) : PreferencesState :=
  {| theme := t; language := language s; languages := languages s;
     viewType := viewType s; dateJump := dateJump s; token := token s;
     fontSize := fontSize s; fontFamily := fontFamily s;
     lineHeight := lineHeight s; density := density s;
     reducedMotion := reducedMotion s; highContrast := highContrast s;
     dimSeenRepos := dimSeenRepos s |}.

Definition setTheme (t : Theme) (s : PreferencesState) : PreferencesState :=
  withTheme t s.

(** [languages.slice(0, 5)] *)
Definition setLanguages (ls : list jsstring) (s : PreferencesState) : PreferencesState :=
  withLanguages (firstn 5 ls) s.

Definition toggleLanguage (l : jsstring) (s : PreferencesState) : PreferencesState :=
  let current := languages s in
  if bool_decide (l ∈ current)
  then withLanguages (filter (fun x => x ≠ l) current) s
  else if (length current <? 5)%nat
       then withLanguages (current ++ [l]) s
       else s.

Definition clearLanguages (s : PreferencesState) : PreferencesState :=
  withLanguages [] s.

End PreferencesStore.

(* ===================================================================== *)
(** ** pages/feed.tsx and components/top-nav.tsx *)
(* ===================================================================== *)

Module FeedPage.
Import PreferencesStore.

(** [data?.pages.flatMap((group) => group.repositories)], the empty list
    while there is no data. *)
Definition allRepos (data : option InfiniteData) : list Repository :=
  match data with
  | Some d => flat_map repositories (pages d)
  | None => []
  end.

(** [allRepos[focusedIndex] || null] *)
Definition focusedRepo (repos : list Repository) (focusedIndex : Z)
  : option Repository :=
  if focusedIndex <? 0 then None else repos !! Z.to_nat focusedIndex.

Definition onNavigateUp (i : Z) : Z := Z.max 0 (i - 1).

Definition onNavigateDown (repos : list Repository) (i : Z) : Z :=
  Z.min (Z.of_nat (length repos) - 1) (i + 1).

(** The effect that marks the loaded repositories as seen. *)
Definition markLoadedAsSeen (data : option InfiniteData) (state : BookmarksState)
  : BookmarksState :=
  let repos := allRepos data in
  if (0 <? length repos)%nat then markAsSeen (map id repos) state else state.

Definition themeOrder : list Theme := [theme_system; theme_light; theme_dark].

Definition themeEqb (a b : Theme) : bool :=
  match a, b with
  | theme_light, theme_light | theme_dark, theme_dark
  | theme_system, theme_system => true
  | _, _ => false
  end.

(** [Array.prototype.indexOf]: the first position, or -1. *)
Fixpoint indexOf (t : Theme) (l : list Theme) : Z :=
  match l with
  | [] => -1
  | x :: l' =>
      if themeEqb x t then 0
      else let i := indexOf t l' in if i <? 0 then -1 else i + 1
  end.

(** [cycleTheme] of the top bar and [onToggleTheme] of the feed. *)
Definition cycleTheme (s : PreferencesState) : PreferencesState :=
  let currentIndex := indexOf (theme s) themeOrder in
  let nextIndex := Z.rem (currentIndex + 1) (Z.of_nat (length themeOrder)) in
  setTheme (nth (Z.to_nat nextIndex) themeOrder theme_system) s.

End FeedPage.
Import FeedPage.

(* ===================================================================== *)
(** ** pages/rss.tsx *)
(* ===================================================================== *)

Module RssPage.

(** The repositories of the feed: the first 50 of the loaded ones. *)
Definition feedRepos (data : option InfiniteData) : list Repository :=
  firstn 50 (allRepos data).

Definition rssFeed (host : Host) (data : option InfiniteData)
    (language : jsstring) (dateJump : DateJump) : jsstring :=
  let repos := feedRepos data in
  let languages := if truthy language then [language] else [] in
  if (length repos =? 0)%nat then []
  else generateRSSFeed host repos
         {| Rss.languages := languages; Rss.dateJump := dateJump;
            baseUrl := None |}.

End RssPage.
Import RssPage.

(* ===================================================================== *)
(** ** stores/bookmarks.ts: what is persisted *)
(* ===================================================================== *)

Module Persist.

(** The persisted object; a field may be missing. Sets and maps are
    written as arrays. *)
Record Persisted := {
  ps_bookmarks : option (list Repository);
  ps_bookmarkedIds : option (list Z);
  ps_notes : option (list (Z * jsstring));
  ps_lastVisit : option jsstring;
  ps_seenRepoIds : option (list Z)
}.

(** [array.slice(-n)]: the last [n] elements. *)
Definition lastN {A : Type} (n : nat) (l : list A) : list A :=
  skipn (length l - n) l.

(** The arrays list the elements of a set or map in the order of the
    model, which is not the insertion order of JavaScript. *)
Definition partialize (state : BookmarksState) : Persisted :=
  {| ps_bookmarks := Some (bookmarks state);
     ps_bookmarkedIds := Some (elements (bookmarkedIds state));
     ps_notes := Some (map_to_list (notes state));
     ps_lastVisit := lastVisit state;
     ps_seenRepoIds := Some (lastN 1000 (elements (seenRepoIds state))) |}.

(** [new Map(entries)]: a later entry replaces an earlier one with the
    same key. *)
Definition mapOfEntries (entries : list (Z * jsstring)) : gmap Z jsstring :=
  list_to_map (rev entries).

(** The data fields after [merge]; the current state supplies nothing
    but the actions. *)
Definition merge (persisted : Persisted) (current : BookmarksState) : BookmarksState :=
  {| bookmarks := default [] (ps_bookmarks persisted);
     bookmarkedIds := list_to_set (default [] (ps_bookmarkedIds persisted));
     notes := mapOfEntries (default [] (ps_notes persisted));
     lastVisit := if truthyOpt (ps_lastVisit persisted)
                  then ps_lastVisit persisted else None;
     seenRepoIds := list_to_set (default [] (ps_seenRepoIds persisted)) |}.

End Persist.
Import Persist.

(* ===================================================================== *)
(** ** components/repository-modal.tsx: the README preview and the note *)
(* ===================================================================== *)

Module Readme.

Record ReadmeRequest := {
  readme_url : jsstring;
  readme_accept : jsstring;
  readme_authorization : option jsstring
}.

(** The response to the README request, with its text when it is ok. *)
Inductive TextResponse : Type :=
| TextOk (status : Z) (text : jsstring)
| TextFailure (status : Z).

Definition readmeRequest (owner repo : jsstring) (token : option jsstring)
  : ReadmeRequest :=
  {| readme_url := lit "https://api.github.com/repos/" ++ owner ++ lit "/"
                     ++ repo ++ lit "/readme";
     readme_accept := lit "application/vnd.github.v3.raw";
     readme_authorization :=
       if truthyOpt token then Some (lit "Bearer " ++ default [] token) else None |}.

Definition truncatedMark : jsstring :=
  [10; 10]%N ++ lit "---" ++ [10; 10]%N ++ lit "*README truncated...*".

Definition fetchReadme (fetch : ReadmeRequest -> TextResponse)
    (owner repo : jsstring) (token : option jsstring) : Outcome jsstring :=
  match fetch (readmeRequest owner repo token) with
  | TextFailure status =>
      if status =? 404 then Fulfilled (lit "*No README found*")
      else Rejected (ErrorMessage (lit "Failed to fetch README"))
  | TextOk _ text =>
      Fulfilled (if (5000 <? length text)%nat
                 then firstn 5000 text ++ truncatedMark
                 else text)
  end.

(** The change handler of the note editor: the text is cut to 500
    code units and stored. *)
Definition onNoteChange (repository : Repository) (value : jsstring)
    (state : BookmarksState) : BookmarksState :=
  setNote (id repository) (firstn 500 value) state.

End Readme.
Import Readme.

(* ===================================================================== *)
(** * Properties *)
(* ===================================================================== *)

Module RangeFacts.

Lemma allPow_spec (f : Z -> bool) (k : nat) (z0 : Z) :
  allPow f k z0 = true ->
  forall z, z0 <= z < z0 + 2 ^ Z.of_nat k -> f z = true.
Proof.
  revert z0. induction k as [|k IH]; intros z0 H z Hz.
  - simpl in Hz. replace z with z0 by lia. exact H.
  - simpl in H. apply andb_prop in H as [Hlo Hhi].
    rewrite Nat2Z.inj_succ, Z.pow_succ_r in Hz by lia.
    destruct (Z_lt_le_dec z (z0 + 2 ^ Z.of_nat k)).
    + apply (IH z0 Hlo). lia.
    + apply (IH _ Hhi). lia.
Qed.

Lemma allBelow_spec (f : Z -> bool) (n : Z) :
  allBelow f n = true -> forall z, 0 <= z < n -> f z = true.
Proof.
  intros H z Hz. unfold allBelow in H.
  assert (Hpow : n <= 2 ^ Z.of_nat (Z.to_nat (Z.log2_up n))).
  { rewrite Z2Nat.id by apply Z.log2_up_nonneg.
    destruct (Z.eq_dec n 1) as [->|Hn]; [vm_compute; discriminate|].
    apply Z.log2_up_spec. lia. }
  pose proof (allPow_spec _ _ _ H z ltac:(lia)) as Hf. simpl in Hf.
  apply orb_prop in Hf as [Hf|Hf]; [lia | exact Hf].
Qed.

End RangeFacts.

(** ** The calendar *)

Module Calendar.

Lemma InLeapYear_cases (y : Z) : InLeapYear y = 0 \/ InLeapYear y = 1.
Proof. unfold InLeapYear. destruct (isLeapYear y); auto. Qed.

(** A year has 365 days, and one more when it is a leap year. *)
Lemma DayFromYear_succ (y : Z) :
  DayFromYear (y + 1) = DayFromYear y + 365 + InLeapYear y.
Proof.
  unfold DayFromYear, InLeapYear, isLeapYear.
  replace (y + 1 - 1969) with (y - 1968) by lia.
  replace (y + 1 - 1901) with (y - 1900) by lia.
  replace (y + 1 - 1601) with (y - 1600) by lia.
  replace (y + 1 - 1970) with (y - 1969) by lia.
  destruct (Z.eqb_spec (y mod 4) 0); destruct (Z.eqb_spec (y mod 100) 0);
    destruct (Z.eqb_spec (y mod 400) 0); simpl;
    Z.div_mod_to_equations; lia.
Qed.

(** [yearFromDay] picks the year the day lies in. *)
Lemma yearFromDay_spec (d : Z) :
  DayFromYear (yearFromDay d) <= d < DayFromYear (yearFromDay d + 1).
Proof.
  unfold yearFromDay.
  set (y0 := 1970 + d * 400 / 146097).
  assert (Hy0 : 146097 * (y0 - 1970) <= d * 400 < 146097 * (y0 - 1970) + 146097).
  { subst y0. Z.div_mod_to_equations. lia. }
  clearbody y0.
  pose proof (DayFromYear_succ y0) as H1.
  pose proof (DayFromYear_succ (y0 - 1)) as H0.
  pose proof (DayFromYear_succ (y0 + 1)) as H2.
  replace (y0 - 1 + 1) with y0 in H0 by lia.
  pose proof (InLeapYear_cases y0). pose proof (InLeapYear_cases (y0 - 1)).
  pose proof (InLeapYear_cases (y0 + 1)).
  assert (Hest : 400 * DayFromYear y0 - 600 <= 146097 * (y0 - 1970)
                 <= 400 * DayFromYear y0 + 600).
  { unfold DayFromYear. Z.div_mod_to_equations. lia. }
  destruct (Z.ltb_spec d (DayFromYear y0)).
  - replace (y0 - 1 + 1) with y0 by lia. lia.
  - destruct (Z.leb_spec (DayFromYear (y0 + 1)) d).
    + replace (y0 + 1 + 1) with (y0 + 2) by lia.
      replace (y0 + 1 + 1) with (y0 + 2) in H2 by lia. lia.
    + lia.
Qed.

Lemma DayWithinYear_range (t : Z) :
  0 <= DayWithinYear t < 365 + InLeapYear (YearFromTime t).
Proof.
  unfold DayWithinYear, YearFromTime.
  pose proof (yearFromDay_spec (Day t)) as H.
  rewrite DayFromYear_succ in H. lia.
Qed.

Lemma MonthFromTime_range (t : Z) : 0 <= MonthFromTime t <= 11.
Proof.
  unfold MonthFromTime, monthFromDayInYear.
  repeat match goal with |- context [if ?b then _ else _] => destruct b end; lia.
Qed.

Lemma DateFromTime_range (t : Z) : 1 <= DateFromTime t <= 31.
Proof.
  unfold DateFromTime, MonthFromTime, monthFromDayInYear.
  pose proof (DayWithinYear_range t) as H.
  pose proof (InLeapYear_cases (YearFromTime t)) as Hl.
  repeat match goal with
         | |- context [if ?a <? ?b then _ else _] => destruct (Z.ltb_spec a b)
         end; simpl; lia.
Qed.

(** Rebuilding a day from its year, month and day of month gives it back. *)
Lemma MakeDay_fields (t : Z) :
  MakeDay (YearFromTime t) (MonthFromTime t) (DateFromTime t) = Day t.
Proof.
  unfold MakeDay.
  pose proof (MonthFromTime_range t) as Hm.
  rewrite Z.div_small by lia. rewrite Z.mod_small by lia.
  rewrite Z.add_0_r. unfold DateFromTime, DayWithinYear. lia.
Qed.

Lemma MakeDay_firstOfMonth (y m d : Z) :
  MakeDay y m d = firstOfMonth (12 * y + m) + d - 1.
Proof.
  unfold firstOfMonth, MakeDay.
  replace (12 * y + m) with (m + y * 12) by lia.
  rewrite Z.div_add by lia. rewrite Z.mod_add by lia.
  replace (0 + (m / 12 + y)) with (y + m / 12) by lia. lia.
Qed.

(** Every month has between 28 and 31 days. *)
Lemma firstOfMonth_step (j : Z) :
  28 <= firstOfMonth (j + 1) - firstOfMonth j <= 31.
Proof.
  unfold firstOfMonth, MakeDay. rewrite !Z.add_0_l.
  pose proof (Z.div_mod j 12 ltac:(lia)) as Hj.
  pose proof (Z.mod_pos_bound j 12 ltac:(lia)) as Hb.
  set (y := j / 12) in *. set (m := j mod 12) in *.
  pose proof (InLeapYear_cases y) as Hl.
  destruct (Z.eq_dec m 11) as [Hm|Hm].
  - assert (Hq : (j + 1) / 12 = y + 1) by (Z.div_mod_to_equations; lia).
    assert (Hr : (j + 1) mod 12 = 0) by (Z.div_mod_to_equations; lia).
    rewrite Hq, Hr, Hm, DayFromYear_succ. simpl. lia.
  - assert (Hq : (j + 1) / 12 = y) by (Z.div_mod_to_equations; lia).
    assert (Hr : (j + 1) mod 12 = m + 1) by (Z.div_mod_to_equations; lia).
    rewrite Hq, Hr.
    assert (Hcases : m = 0 \/ m = 1 \/ m = 2 \/ m = 3 \/ m = 4 \/ m = 5 \/
                     m = 6 \/ m = 7 \/ m = 8 \/ m = 9 \/ m = 10) by lia.
    clearbody m.
    repeat (destruct Hcases as [->|Hcases]); try subst m; simpl; lia.
Qed.

Lemma firstOfMonth_steps (i : Z) (n : nat) :
  firstOfMonth i + 28 * Z.of_nat n <= firstOfMonth (i + Z.of_nat n).
Proof.
  induction n as [|n IH].
  - replace (i + Z.of_nat 0) with i by lia. lia.
  - pose proof (firstOfMonth_step (i + Z.of_nat n)).
    replace (i + Z.of_nat (S n)) with (i + Z.of_nat n + 1) by lia. lia.
Qed.

Lemma firstOfMonth_mono (i j : Z) :
  i <= j -> firstOfMonth i + 28 * (j - i) <= firstOfMonth j.
Proof.
  intros H. pose proof (firstOfMonth_steps i (Z.to_nat (j - i))) as Hs.
  rewrite Z2Nat.id in Hs by lia.
  replace (i + (j - i)) with j in Hs by lia. exact Hs.
Qed.

Lemma firstOfMonth_lt (i j : Z) :
  firstOfMonth i < firstOfMonth j -> i < j.
Proof.
  intros H. destruct (Z_lt_le_dec i j) as [|Hle]; [assumption|].
  pose proof (firstOfMonth_mono j i Hle). lia.
Qed.

(** A day lies in the month that its fields name. *)
Lemma Day_in_month (t : Z) :
  firstOfMonth (monthIndex t) <= Day t < firstOfMonth (monthIndex t + 1).
Proof.
  pose proof (MakeDay_fields t) as H.
  rewrite MakeDay_firstOfMonth in H. fold (monthIndex t) in H.
  pose proof (DateFromTime_range t) as Hd.
  split; [lia|].
  (* the day of the month never exceeds the length of the month *)
  unfold monthIndex in *.
  pose proof (MonthFromTime_range t) as Hm.
  pose proof (DayWithinYear_range t) as Hw.
  pose proof (InLeapYear_cases (YearFromTime t)) as Hl.
  unfold firstOfMonth, MakeDay in *. rewrite !Z.add_0_l in *.
  set (y := YearFromTime t) in *. set (m := MonthFromTime t) in *.
  assert (Hy : (12 * y + m) / 12 = y) by (Z.div_mod_to_equations; lia).
  assert (Hr : (12 * y + m) mod 12 = m) by (Z.div_mod_to_equations; lia).
  rewrite Hy, Hr in H.
  unfold DateFromTime in H. fold y in H. fold m in H.
  destruct (Z.eq_dec m 11) as [Hm11|Hm11].
  - assert (Hq : (12 * y + m + 1) / 12 = y + 1) by (Z.div_mod_to_equations; lia).
    assert (Hr' : (12 * y + m + 1) mod 12 = 0) by (Z.div_mod_to_equations; lia).
    rewrite Hq, Hr', DayFromYear_succ. simpl. unfold DayWithinYear in Hw.
    fold y in Hw. lia.
  - assert (Hq : (12 * y + m + 1) / 12 = y) by (Z.div_mod_to_equations; lia).
    assert (Hr' : (12 * y + m + 1) mod 12 = m + 1) by (Z.div_mod_to_equations; lia).
    rewrite Hq, Hr'.
    assert (Hlt : DayWithinYear t < daysBeforeMonth (InLeapYear y) (m + 1)).
    { subst m. unfold MonthFromTime, monthFromDayInYear in *. fold y in Hm11 |- *.
      repeat match goal with
             | |- context [if ?a <? ?b then _ else _] => destruct (Z.ltb_spec a b)
             | H : context [if ?a <? ?b then _ else _] |- _ => destruct (Z.ltb_spec a b)
             end; simpl; lia. }
    unfold DayWithinYear in Hlt. fold y in Hlt. lia.
Qed.

End Calendar.

(** ** Strings and the decimal notation of numbers *)

Module StringFacts.
Import RangeFacts.

Lemma uintChars_digits (u : Decimal.uint) : Forall (fun c => isDigit c = true) (uintChars u).
Proof. induction u; simpl; constructor; auto. Qed.

Lemma uintChars_inj (u v : Decimal.uint) : uintChars u = uintChars v -> u = v.
Proof.
  revert v. induction u; destruct v; simpl; intros H;
    try discriminate; try reflexivity;
    injection H as H; f_equal; auto.
Qed.

Lemma natToString_digits (n : Z) : Forall (fun c => isDigit c = true) (natToString n).
Proof. apply uintChars_digits. Qed.

Lemma repeat_zero_uint (k : nat) (u : Decimal.uint) :
  repeat c_zero k ++ uintChars u = uintChars (Nat.iter k D0 u).
Proof. induction k as [|k IH]; simpl; [reflexivity | now rewrite IH]. Qed.

Lemma of_uint_zeros (k : nat) (u : Decimal.uint) :
  N.of_uint (Nat.iter k D0 u) = N.of_uint u.
Proof. induction k as [|k IH]; simpl; [reflexivity | exact IH]. Qed.

(** Padding with zeros keeps the number readable: equal padded notations
    denote equal numbers. *)
Lemma padStart_natToString_inj (a b : Z) (k : nat) :
  0 <= a -> 0 <= b ->
  padStart (natToString a) k c_zero = padStart (natToString b) k c_zero ->
  a = b.
Proof.
  intros Ha Hb H. unfold padStart, natToString in H.
  rewrite !repeat_zero_uint in H. apply uintChars_inj in H.
  apply (f_equal N.of_uint) in H.
  rewrite !of_uint_zeros, !DecimalN.Unsigned.of_to in H. lia.
Qed.

Lemma padStart_digits (s : jsstring) (k : nat) :
  Forall (fun c => isDigit c = true) s ->
  Forall (fun c => isDigit c = true) (padStart s k c_zero).
Proof.
  intros H. unfold padStart. apply Forall_app. split; [|exact H].
  induction (k - length s)%nat; simpl; constructor; auto.
Qed.

Lemma padStart_length (s : jsstring) (k : nat) :
  (length s <= k)%nat -> length (padStart s k c_zero) = k.
Proof. intros H. unfold padStart. rewrite length_app, repeat_length. lia. Qed.

Lemma padStart_length_ge (s : jsstring) (k : nat) :
  (k <= length (padStart s k c_zero))%nat.
Proof. unfold padStart. rewrite length_app, repeat_length. lia. Qed.

Lemma natToString_short_all :
  allBelow (fun n => (length (natToString n) <=? 4)%nat
                     && ((100 <=? n) || (length (natToString n) <=? 2)%nat)
                     && ((1000 <=? n) || (length (natToString n) <=? 3)%nat))
           10000 = true.
Proof. vm_compute. reflexivity. Qed.

Lemma natToString_length (n : Z) :
  0 <= n < 10000 ->
  (length (natToString n) <= 4)%nat
  /\ (n < 100 -> (length (natToString n) <= 2)%nat)
  /\ (n < 1000 -> (length (natToString n) <= 3)%nat).
Proof.
  intros H. pose proof (allBelow_spec _ _ natToString_short_all n H) as Hc.
  simpl in Hc. apply andb_prop in Hc as [Hc H3]. apply andb_prop in Hc as [H4 H2].
  apply Nat.leb_le in H4. split; [exact H4|]. split; intros Hn.
  - apply orb_prop in H2 as [H2|H2]; [lia | now apply Nat.leb_le].
  - apply orb_prop in H3 as [H3|H3]; [lia | now apply Nat.leb_le].
Qed.

(** *** Shapes *)

Lemma hasShape_length (shape : list charClass) (s : jsstring) :
  hasShape shape s = true -> length s = length shape.
Proof.
  revert s. induction shape as [|k shape IH]; intros [|c s] H;
    simpl in *; try discriminate; [reflexivity|].
  apply andb_prop in H as [_ H]. f_equal. auto.
Qed.

Lemma hasShape_app (p1 p2 : list charClass) (s1 s2 : jsstring) :
  hasShape p1 s1 = true -> hasShape p2 s2 = true ->
  hasShape (p1 ++ p2) (s1 ++ s2) = true.
Proof.
  revert s1. induction p1 as [|k p1 IH]; intros [|c s1] H1 H2;
    simpl in *; try discriminate; [exact H2|].
  apply andb_prop in H1 as [Hc H1]. rewrite Hc. simpl. auto.
Qed.

Lemma hasShape_digits (s : jsstring) (k : nat) :
  length s = k -> Forall (fun c => isDigit c = true) s ->
  hasShape (digits k) s = true.
Proof.
  intros <- H. induction H as [|c s Hc _ IH]; simpl; [reflexivity|].
  rewrite Hc. exact IH.
Qed.

Lemma hasShape_exactly (s : string) : hasShape (exactly s) (lit s) = true.
Proof.
  unfold exactly. induction (lit s) as [|c l IH]; simpl; [reflexivity|].
  rewrite N.eqb_refl. exact IH.
Qed.

(** A number below [10 ^ k], padded to [k] places, is [k] digits. *)
Lemma pad_shape (n : Z) (k : nat) :
  0 <= n -> (length (natToString n) <= k)%nat ->
  hasShape (digits k) (addLeadingZeros n k) = true.
Proof.
  intros Hn Hl. unfold addLeadingZeros.
  destruct (Z.ltb_spec n 0); [lia|]. simpl. rewrite Z.abs_eq by lia.
  apply hasShape_digits.
  - now apply padStart_length.
  - apply padStart_digits, natToString_digits.
Qed.

(** *** Dashes *)

Lemma dashCount_app (s1 s2 : jsstring) :
  dashCount (s1 ++ s2) = (dashCount s1 + dashCount s2)%nat.
Proof. unfold dashCount. now rewrite List.filter_app, length_app. Qed.

Lemma dashCount_digits (s : jsstring) :
  Forall (fun c => isDigit c = true) s -> dashCount s = 0%nat.
Proof.
  unfold dashCount. induction 1 as [|c s Hc _ IH]; simpl; [reflexivity|].
  assert (isDash c = false) as ->; [|exact IH].
  unfold isDigit, isDash in *. apply andb_prop in Hc as [H1 H2].
  apply N.leb_le in H1, H2.
  repeat (apply orb_false_intro); apply N.eqb_neq; lia.
Qed.

Lemma dashCount_addLeadingZeros (n : Z) (k : nat) :
  0 <= n -> dashCount (addLeadingZeros n k) = 0%nat.
Proof.
  intros Hn. unfold addLeadingZeros. destruct (Z.ltb_spec n 0); [lia|].
  simpl. apply dashCount_digits, padStart_digits, natToString_digits.
Qed.

Lemma dashCount_nth (l : list string) (n : nat) :
  Forall (fun s => dashCount (lit s) = 0%nat) l ->
  dashCount (lit (nth n l EmptyString)) = 0%nat.
Proof.
  intros H. destruct (nth_in_or_default n l EmptyString) as [Hin| ->].
  - rewrite Forall_forall in H. apply H. now apply list_elem_of_In.
  - reflexivity.
Qed.

End StringFacts.

(** ** Dates in local time and date-fns arithmetic *)

Module DateFacts.
Import Calendar.

(** Replace the first-of-month day numbers by variables, so that
    arithmetic does not look into the calendar. *)
Ltac hide_months :=
  repeat match goal with
         | |- context [firstOfMonth ?j] =>
             let f := fresh "f" in
             set (f := firstOfMonth j) in *; clearbody f
         | H : context [firstOfMonth ?j] |- _ =>
             let f := fresh "f" in
             set (f := firstOfMonth j) in *; clearbody f
         end.

Lemma Day_MakeDate (d tm : Z) : 0 <= tm < msPerDay -> Day (MakeDate d tm) = d.
Proof.
  intros H. unfold Day, MakeDate, msPerDay in *.
  rewrite Z.add_comm, Z.div_add by lia. rewrite Z.div_small by lia. lia.
Qed.

Lemma TimeWithinDay_range (t : Z) : 0 <= TimeWithinDay t < msPerDay.
Proof. unfold TimeWithinDay, msPerDay. apply Z.mod_pos_bound. lia. Qed.

Lemma MakeDate_Day (t : Z) : MakeDate (Day t) (TimeWithinDay t) = t.
Proof.
  unfold MakeDate, Day, TimeWithinDay, msPerDay.
  pose proof (Z.div_mod t 86400000 ltac:(lia)). lia.
Qed.

Lemma MakeDay_date (y m d a : Z) : MakeDay y m (d + a) = MakeDay y m d + a.
Proof. unfold MakeDay. lia. Qed.

Section Zone.
Variable tz : Z.

Lemma LocalTime_UTC (t : Z) : LocalTime tz (UTC tz t) = t.
Proof. unfold LocalTime, UTC. lia. Qed.

Lemma UTC_LocalTime (t : Z) : UTC tz (LocalTime tz t) = t.
Proof. unfold LocalTime, UTC. lia. Qed.

(** Setting the day of the month moves the date by whole days. *)
Lemma setDate_shift (d : Date) (a : Z) :
  setDate tz d (getDate tz d + a) = d + a * msPerDay.
Proof.
  unfold setDate, getDate. rewrite MakeDay_date, MakeDay_fields.
  unfold MakeDate. pose proof (MakeDate_Day (LocalTime tz d)) as H.
  unfold MakeDate in H. unfold UTC, LocalTime in *. lia.
Qed.

Lemma addDays_shift (d : Date) (a : Z) : addDays tz d a = d + a * msPerDay.
Proof.
  unfold addDays. destruct (Z.eqb_spec a 0) as [->|_]; [lia|].
  apply setDate_shift.
Qed.

Lemma subDays_shift (d : Date) (a : Z) : subDays tz d a = d - a * msPerDay.
Proof. unfold subDays. rewrite addDays_shift. lia. Qed.

Lemma subWeeks_shift (d : Date) (a : Z) :
  subWeeks tz d a = d - a * (7 * msPerDay).
Proof. unfold subWeeks, addWeeks. rewrite addDays_shift. lia. Qed.

Lemma localDay_shift (d : Date) (a : Z) :
  localDay tz (d + a * msPerDay) = localDay tz d + a.
Proof.
  unfold localDay, LocalTime, Day, msPerDay, msPerMinute.
  replace (d + a * 86400000 + tz * 60000) with (d + tz * 60000 + a * 86400000) by lia.
  rewrite Z.div_add by lia. reflexivity.
Qed.

Lemma startOfDay_localDay (d : Date) :
  startOfDay tz d = UTC tz (localDay tz d * msPerDay).
Proof. unfold startOfDay, setHours, MakeDate, MakeTime, localDay. f_equal. lia. Qed.

Lemma endOfDay_localDay (d : Date) :
  endOfDay tz d = UTC tz (localDay tz d * msPerDay) + (msPerDay - 1).
Proof.
  unfold endOfDay, setHours, MakeDate, MakeTime, localDay, UTC,
    msPerDay, msPerHour, msPerMinute, msPerSecond. lia.
Qed.

(** The end of a day is 23:59:59.999 after its start. *)
Lemma endOfDay_startOfDay (d : Date) :
  endOfDay tz d = startOfDay tz d + (msPerDay - 1).
Proof. rewrite endOfDay_localDay, startOfDay_localDay. reflexivity. Qed.

Lemma startOfDay_le (d : Date) : startOfDay tz d <= d < startOfDay tz d + msPerDay.
Proof.
  rewrite startOfDay_localDay. unfold localDay, UTC.
  pose proof (MakeDate_Day (LocalTime tz d)) as H.
  pose proof (TimeWithinDay_range (LocalTime tz d)) as Hr.
  unfold MakeDate in H. unfold LocalTime in *. lia.
Qed.

Lemma startOfDay_lt (d1 d2 : Date) :
  localDay tz d1 < localDay tz d2 -> startOfDay tz d1 + msPerDay <= startOfDay tz d2.
Proof.
  intros H. rewrite !startOfDay_localDay. unfold UTC, msPerDay. lia.
Qed.

(** *** Months *)

Lemma localDay_fields (d : Date) :
  localDay tz d = firstOfMonth (localMonth tz d) + getDate tz d - 1.
Proof.
  unfold localDay, localMonth, getDate, monthIndex.
  rewrite <- MakeDay_firstOfMonth. symmetry. apply MakeDay_fields.
Qed.

Lemma getDate_le_monthLength (d : Date) :
  1 <= getDate tz d <= monthLength (localMonth tz d).
Proof.
  pose proof (localDay_fields d) as H.
  pose proof (Day_in_month (LocalTime tz d)) as Hm.
  pose proof (DateFromTime_range (LocalTime tz d)) as Hr.
  unfold monthLength, localMonth, localDay, getDate in *. lia.
Qed.

(** A day number between the first days of two consecutive months lies in
    the first of them. *)
Lemma monthIndex_unique (t j : Z) :
  firstOfMonth j <= Day t < firstOfMonth (j + 1) -> monthIndex t = j.
Proof.
  intros H. pose proof (Day_in_month t) as Hm.
  assert (monthIndex t < j + 1) by (apply firstOfMonth_lt; lia).
  assert (j < monthIndex t + 1) by (apply firstOfMonth_lt; lia).
  lia.
Qed.

Lemma Day_setters (d : Date) (day : Z) :
  Day (LocalTime tz (UTC tz (MakeDate day (TimeWithinDay (LocalTime tz d))))) = day.
Proof. rewrite LocalTime_UTC. apply Day_MakeDate, TimeWithinDay_range. Qed.

Lemma setMonth_localDay (d : Date) (m dt : Z) :
  localDay tz (setMonth tz d m dt) = MakeDay (getFullYear tz d) m dt.
Proof. unfold setMonth, localDay. apply Day_setters. Qed.

Lemma setFullYear_localDay (d : Date) (y m dt : Z) :
  localDay tz (setFullYear tz d y m dt) = MakeDay y m dt.
Proof. unfold setFullYear, localDay. apply Day_setters. Qed.

Lemma localMonth_fields (d : Date) :
  localMonth tz d = 12 * getFullYear tz d + getMonth tz d.
Proof. reflexivity. Qed.

(** The day before the first of month [j + 1] is the last day of month
    [j]: its day of the month is the length of the month. *)
Lemma lastOfMonth_fields (e : Date) (j : Z) :
  localDay tz e = firstOfMonth (j + 1) - 1 ->
  localMonth tz e = j /\ getDate tz e = monthLength j.
Proof.
  intros He. pose proof (firstOfMonth_step j) as Hstep.
  assert (Hje : localMonth tz e = j).
  { apply monthIndex_unique. unfold localDay in He. rewrite He. lia. }
  split; [exact Hje|].
  pose proof (localDay_fields e) as Hfe. rewrite Hje, He in Hfe.
  unfold monthLength. lia.
Qed.

(** [addMonths] lands in the month [amount] months away, on the same day
    of the month, or on the last day of that month when it is shorter. *)
Lemma addMonths_localDay (d : Date) (amount : Z) :
  localDay tz (addMonths tz d amount)
  = firstOfMonth (localMonth tz d + amount)
    + Z.min (getDate tz d) (monthLength (localMonth tz d + amount)) - 1.
Proof.
  pose proof (getDate_le_monthLength d) as Hd.
  unfold addMonths. destruct (Z.eqb_spec amount 0) as [->|Hne].
  - rewrite Z.add_0_r. rewrite Z.min_l by lia. apply localDay_fields.
  - remember (localMonth tz d + amount) as j eqn:Ej.
    remember (setMonth tz d (getMonth tz d + amount + 1) 0) as e eqn:Ee.
    assert (He : localDay tz e = firstOfMonth (j + 1) - 1).
    { subst e j. rewrite setMonth_localDay, MakeDay_firstOfMonth.
      rewrite localMonth_fields. rewrite Z.add_0_r. f_equal. f_equal. lia. }
    clear Ee.
    destruct (lastOfMonth_fields e j He) as [Hje Hlen].
    rewrite Hlen.
    destruct (Z.geb_spec (getDate tz d) (monthLength j)).
    + rewrite Z.min_r by lia. rewrite He. unfold monthLength. lia.
    + rewrite Z.min_l by lia.
      rewrite setFullYear_localDay, MakeDay_firstOfMonth.
      rewrite <- localMonth_fields, Hje. reflexivity.
Qed.

Lemma monthLength_range (j : Z) : 28 <= monthLength j <= 31.
Proof. apply firstOfMonth_step. Qed.

(** Going back further in months gives an earlier day. *)
Lemma subMonths_localDay_lt (d : Date) (a b : Z) :
  a < b -> localDay tz (subMonths tz d b) < localDay tz (subMonths tz d a).
Proof.
  intros H. unfold subMonths.
  rewrite (addMonths_localDay d (- b)), (addMonths_localDay d (- a)).
  pose proof (getDate_le_monthLength d) as Hd.
  pose proof (firstOfMonth_step (localMonth tz d + - b)) as Hb.
  pose proof (firstOfMonth_step (localMonth tz d + - a)) as Ha.
  pose proof (firstOfMonth_mono (localMonth tz d + - b + 1) (localMonth tz d + - a)
                ltac:(lia)) as Hm.
  unfold monthLength.
  generalize dependent (getDate tz d). intros g Hd.
  hide_months. lia.
Qed.

End Zone.
End DateFacts.

(** ** The date window calculator ([getDateRange]) *)

Module Windows.
Import Calendar DateFacts.

Section Zone.
Variable tz : Z.
Variable now : Date.

Lemma day_window (offset : Z) :
  let r := getDateRange tz now day offset in
  end_ r = start r + (msPerDay - 1).
Proof. simpl. apply endOfDay_startOfDay. Qed.

Lemma week_window (offset : Z) :
  let r := getDateRange tz now week offset in
  start r = startOfDay tz (now - (offset + 1) * (7 * msPerDay)) /\
  end_ r = endOfDay tz (now - offset * (7 * msPerDay)).
Proof. simpl. rewrite !subWeeks_shift. split; reflexivity. Qed.

Lemma week_window_width (offset : Z) :
  let r := getDateRange tz now week offset in
  end_ r - start r = 8 * msPerDay - 1.
Proof.
  simpl. rewrite endOfDay_localDay, startOfDay_localDay, !subWeeks_shift.
  replace (now - (offset + 1) * (7 * msPerDay))
    with (now - offset * (7 * msPerDay) + (-7) * msPerDay) by lia.
  rewrite localDay_shift. unfold UTC, msPerDay. lia.
Qed.

Lemma month_window_order (offset : Z) :
  let r := getDateRange tz now month offset in
  start r + msPerDay <= end_ r + 1.
Proof.
  simpl. rewrite endOfDay_startOfDay.
  pose proof (startOfDay_lt tz (subMonths tz now (offset + 1))
                (subMonths tz now offset)
                (subMonths_localDay_lt tz now offset (offset + 1) ltac:(lia))).
  unfold msPerDay in *. lia.
Qed.

End Zone.

(** C5. For every cadence and every offset >= 0 the window returned by
    [getDateRange] has [start < end]; in particular [start <= end]. *)
Theorem getDateRange_start_before_end (tz : Z) (now : Date)
    (dateJump : DateJump) (offset : Z) :
  0 <= offset ->
  let r := getDateRange tz now dateJump offset in
  start r < end_ r /\ start r <= end_ r.
Proof.
  intros _ r.
  assert (H : start r < end_ r); [|split; lia].
  subst r. destruct dateJump.
  - pose proof (day_window tz now offset) as H. simpl in H.
    unfold getDateRange, start, end_. rewrite H. unfold msPerDay. lia.
  - pose proof (week_window_width tz now offset) as H. simpl in H.
    unfold getDateRange, start, end_. unfold msPerDay in H. lia.
  - pose proof (month_window_order tz now offset) as H. simpl in H.
    unfold getDateRange, start, end_. unfold msPerDay in H. lia.
Qed.

Lemma getDateRange_start_before_end_witness :
  0 <= 3 /\
  (let r := getDateRange 180 sampleNow month 3 in
   start r < end_ r /\ start r <= end_ r).
Proof.
  split; [lia | apply (getDateRange_start_before_end 180 sampleNow month 3); lia].
Defined.

Example week_windows :
  let w0 := getDateRange 0 sampleNow week 0 in
  let w1 := getDateRange 0 sampleNow week 1 in
  toISOString (start w0) = lit "2025-10-26T00:00:00.000Z"
  /\ toISOString (end_ w0) = lit "2025-11-02T23:59:59.999Z"
  /\ toISOString (start w1) = lit "2025-10-19T00:00:00.000Z"
  /\ toISOString (end_ w1) = lit "2025-10-26T23:59:59.999Z".
Proof. repeat split; vm_compute; reflexivity. Qed.

Example month_windows :
  let m0 := getDateRange 0 sampleNow month 0 in
  let m1 := getDateRange 0 sampleNow month 1 in
  toISOString (start m0) = lit "2025-10-02T00:00:00.000Z"
  /\ toISOString (end_ m0) = lit "2025-11-02T23:59:59.999Z"
  /\ toISOString (start m1) = lit "2025-09-02T00:00:00.000Z"
  /\ toISOString (end_ m1) = lit "2025-10-02T23:59:59.999Z".
Proof. repeat split; vm_compute; reflexivity. Qed.

(** C1, as stated, fails: the end of window 1 is not the start of
    window 0, neither for weeks nor for months. *)
Lemma adjacent_windows_counterexample :
  end_ (getDateRange 0 sampleNow week 1) <> start (getDateRange 0 sampleNow week 0)
  /\ end_ (getDateRange 0 sampleNow month 1) <> start (getDateRange 0 sampleNow month 0).
Proof. split; vm_compute; discriminate. Qed.

(** C1, amended. For the week and the month cadence and every N >= 1, the
    end of window N is the end of the local calendar day whose start is
    the start of window N-1: each bound is [endOfDay], respectively
    [startOfDay], of the other, so consecutive windows share that one day.
    In a local zone at a fixed offset from UTC the day has 24 hours and the
    end of window N is the start of window N-1 plus 86,399,999 ms. *)
Theorem adjacent_windows_share_a_day (tz : Z) (now : Date)
    (dateJump : DateJump) (N : Z) :
  dateJump <> day -> 1 <= N ->
  end_ (getDateRange tz now dateJump N)
  = start (getDateRange tz now dateJump (N - 1)) + (msPerDay - 1)
  /\ end_ (getDateRange tz now dateJump N)
     = endOfDay tz (start (getDateRange tz now dateJump (N - 1)))
  /\ start (getDateRange tz now dateJump (N - 1))
     = startOfDay tz (end_ (getDateRange tz now dateJump N))
  /\ localDay tz (end_ (getDateRange tz now dateJump N))
     = localDay tz (start (getDateRange tz now dateJump (N - 1))).
Proof.
  intros Hd _.
  assert (Hsame : forall d,
            localDay tz (endOfDay tz d) = localDay tz (startOfDay tz d)
            /\ localDay tz (startOfDay tz d) = localDay tz d).
  { intros d. rewrite endOfDay_localDay, startOfDay_localDay.
    unfold localDay, LocalTime, UTC, Day, msPerDay.
    generalize (Day (LocalTime tz d)). intros D.
    split; Z.div_mod_to_equations; lia. }
  assert (Hpair : forall d,
            endOfDay tz d = startOfDay tz d + (msPerDay - 1)
            /\ endOfDay tz d = endOfDay tz (startOfDay tz d)
            /\ startOfDay tz d = startOfDay tz (endOfDay tz d)
            /\ localDay tz (endOfDay tz d) = localDay tz (startOfDay tz d)).
  { intros d. destruct (Hsame d) as [He Hs].
    split; [apply endOfDay_startOfDay|]. split; [|split; [|exact He]].
    - rewrite (endOfDay_localDay tz (startOfDay tz d)), Hs.
      apply endOfDay_localDay.
    - rewrite (startOfDay_localDay tz (endOfDay tz d)), He, Hs.
      apply startOfDay_localDay. }
  destruct dateJump; [congruence| |]; cbn [getDateRange start end_];
    replace (N - 1 + 1) with N by lia; apply Hpair.
Qed.

Lemma adjacent_windows_share_a_day_witness :
  week <> day /\ 1 <= 2 /\
  end_ (getDateRange 60 sampleNow week 2)
  = start (getDateRange 60 sampleNow week (2 - 1)) + (msPerDay - 1).
Proof.
  split; [discriminate | split; [lia |]].
  apply (adjacent_windows_share_a_day 60 sampleNow week 2); [discriminate | lia].
Defined.

(** C2, as stated, fails: the week window is not 7 days wide. *)
Lemma week_width_counterexample :
  let r := getDateRange 0 sampleNow week 0 in
  end_ r - start r <> 7 * msPerDay.
Proof. vm_compute. discriminate. Qed.

(** C2, amended. For the week cadence and every offset >= 0, the window
    ends at the end of the day [offset] weeks before now, starts at the
    start of the day [offset + 1] weeks before now, and is 8 days less one
    millisecond wide. *)
Theorem week_window_bounds (tz : Z) (now : Date) (offset : Z) :
  0 <= offset ->
  let r := getDateRange tz now week offset in
  end_ r = endOfDay tz (now - offset * (7 * msPerDay)) /\
  start r = startOfDay tz (now - (offset + 1) * (7 * msPerDay)) /\
  end_ r - start r = 8 * msPerDay - 1.
Proof.
  intros _ r. destruct (week_window tz now offset) as [Hs He].
  pose proof (week_window_width tz now offset) as Hw.
  subst r. auto.
Qed.

Lemma week_window_bounds_witness :
  0 <= 1 /\
  (let r := getDateRange 0 sampleNow week 1 in
   end_ r = endOfDay 0 (sampleNow - 1 * (7 * msPerDay)) /\
   start r = startOfDay 0 (sampleNow - (1 + 1) * (7 * msPerDay)) /\
   end_ r - start r = 8 * msPerDay - 1).
Proof.
  split; [lia | apply (week_window_bounds 0 sampleNow 1); lia].
Defined.

End Windows.

(** ** Formatting dates: the search query and the group label *)

Module FormatFacts.
Import Calendar DateFacts StringFacts.

Section Zone.
Variable tz : Z.

Lemma getMonth_range (d : Date) : 0 <= getMonth tz d <= 11.
Proof. apply MonthFromTime_range. Qed.

Lemma getDate_range (d : Date) : 1 <= getDate tz d <= 31.
Proof. apply DateFromTime_range. Qed.

Lemma getHours_range (d : Date) : 0 <= getHours tz d < 24.
Proof. unfold getHours, HourFromTime. apply Z.mod_pos_bound. lia. Qed.

Lemma getMinutes_range (d : Date) : 0 <= getMinutes tz d < 60.
Proof. unfold getMinutes, MinFromTime. apply Z.mod_pos_bound. lia. Qed.

Lemma getSeconds_range (d : Date) : 0 <= getSeconds tz d < 60.
Proof. unfold getSeconds, SecFromTime. apply Z.mod_pos_bound. lia. Qed.

Lemma two_digits (n : Z) :
  0 <= n < 100 -> hasShape (digits 2) (addLeadingZeros n 2) = true.
Proof.
  intros H. apply pad_shape; [lia|].
  apply natToString_length; lia.
Qed.

(** The year printed by [yyyy] is never negative. *)
Lemma year_token_positive (d : Date) :
  0 < (if getFullYear tz d >? 0 then getFullYear tz d else 1 - getFullYear tz d).
Proof. destruct (Z.gtb_spec (getFullYear tz d) 0); lia. Qed.

Lemma four_digits (d : Date) :
  fourDigitYear tz d -> hasShape (digits 4) (formatToken tz d Tyyyy) = true.
Proof.
  unfold fourDigitYear. intros H. unfold formatToken.
  pose proof (year_token_positive d) as Hp.
  apply pad_shape; [lia|]. apply natToString_length.
  destruct (Z.gtb_spec (getFullYear tz d) 0); lia.
Qed.

(** The timestamps of the search query have the ISO 8601 shape. *)
Lemma format_iso_shape (d : Date) :
  fourDigitYear tz d -> hasShape isoSecondsShape (format tz d isoPattern) = true.
Proof.
  intros Hy. unfold format, isoPattern, isoSecondsShape.
  cbn [map concat]. rewrite app_nil_r.
  pose proof (getMonth_range d). pose proof (getDate_range d).
  pose proof (getHours_range d). pose proof (getMinutes_range d).
  pose proof (getSeconds_range d).
  repeat (apply hasShape_app;
          [first [ now apply four_digits
                 | apply hasShape_exactly
                 | apply two_digits; lia ] |]).
  apply hasShape_exactly.
Qed.

Lemma addLeadingZeros_nonneg (n : Z) (k : nat) :
  0 <= n -> addLeadingZeros n k = padStart (natToString n) k c_zero.
Proof.
  intros H. unfold addLeadingZeros.
  destruct (Z.ltb_spec n 0); [lia|]. now rewrite Z.abs_eq.
Qed.

(** For the years 1 to 9999 the timestamp of the query is the ISO 8601
    timestamp, in UTC notation, of the local time read as an instant. *)
Lemma format_isoUTCSeconds (d : Date) :
  1 <= getFullYear tz d <= 9999 ->
  format tz d isoPattern = isoUTCSeconds (LocalTime tz d).
Proof.
  intros Hy. unfold format, isoPattern, isoUTCSeconds.
  cbn [map concat]. rewrite app_nil_r. unfold formatToken.
  pose proof (getMonth_range d). pose proof (getDate_range d).
  pose proof (getHours_range d). pose proof (getMinutes_range d).
  pose proof (getSeconds_range d).
  destruct (Z.gtb_spec (getFullYear tz d) 0) as [_|]; [|lia].
  rewrite !addLeadingZeros_nonneg by lia.
  unfold getFullYear, getMonth, getDate, getHours, getMinutes, getSeconds in *.
  unfold isoYear, pad2.
  destruct (Z.leb_spec 0 (YearFromTime (LocalTime tz d))); [|lia].
  destruct (Z.leb_spec (YearFromTime (LocalTime tz d)) 9999); [|lia].
  reflexivity.
Qed.

End Zone.

(** [toISOString] is the timestamp of the spec with the milliseconds
    before the Z. *)
Lemma toISOString_isoUTCSeconds (t : Date) :
  toISOString t
  = removelast (isoUTCSeconds t) ++ lit "." ++ pad3 (msFromTime t) ++ lit "Z".
Proof.
  unfold toISOString, isoUTCSeconds.
  change (lit "Z") with [90%N] at 2.
  rewrite !app_assoc, removelast_last, <- !app_assoc. reflexivity.
Qed.

(** C3, as stated, fails: three hours east of Greenwich the window of the
    day starts at 21:00:00 UTC of the day before and ends at 20:59:59 UTC,
    while the query names 00:00:00Z and 23:59:59Z of the local date. The
    fragment is not made of the ISO 8601 UTC timestamps of the two
    bounds. *)
Lemma utc_timestamp_counterexample :
  let params :=
    {| p_language := None;
       p_dateRange := getDateRange 180 sampleNow day 0;
       p_token := None |} in
  let r := p_dateRange params in
  q (buildRequest 180 params)
  = lit "created:2025-11-02T00:00:00Z..2025-11-02T23:59:59Z"
  /\ isoUTCSeconds (start r) = lit "2025-11-01T21:00:00Z"
  /\ isoUTCSeconds (end_ r) = lit "2025-11-02T20:59:59Z"
  /\ q (buildRequest 180 params)
     <> lit "created:" ++ isoUTCSeconds (start r) ++ lit ".."
          ++ isoUTCSeconds (end_ r).
Proof.
  intros params r. repeat split; try (vm_compute; reflexivity).
  vm_compute. discriminate.
Qed.

(** C3, amended. The search request built by [fetchRepositories] combines
    the optional language filter with the fragment
    [created:<timestamp>..<timestamp>]. Each timestamp has the shape
    [dddd-dd-ddTdd:dd:ddZ] and prints the local calendar date and clock
    time of the bound followed by a literal Z: it is the ISO 8601 UTC
    timestamp, to the second, of the bound moved by the offset of the local
    zone, and of the bound itself when the local zone is UTC. The request
    sorts by stars, descending, and asks for 25 results. *)
Theorem fetchRepositories_request (tz : Z) (params : FetchParams) :
  1 <= getFullYear tz (start (p_dateRange params)) <= 9999 ->
  1 <= getFullYear tz (end_ (p_dateRange params)) <= 9999 ->
  let request := buildRequest tz params in
  let from := isoUTCSeconds (LocalTime tz (start (p_dateRange params))) in
  let to := isoUTCSeconds (LocalTime tz (end_ (p_dateRange params))) in
  let languageQuery :=
    if truthyOpt (p_language params)
    then lit "language:" ++ default [] (p_language params) ++ lit " "
    else [] in
  (forall fetch, fetchRepositories tz fetch params = settle (fetch request))
  /\ q request = languageQuery ++ lit "created:" ++ from ++ lit ".." ++ to
  /\ (tz = 0 ->
      q request
      = languageQuery ++ lit "created:"
          ++ isoUTCSeconds (start (p_dateRange params)) ++ lit ".."
          ++ isoUTCSeconds (end_ (p_dateRange params)))
  /\ hasShape isoSecondsShape from = true
  /\ hasShape isoSecondsShape to = true
  /\ sort request = lit "stars"
  /\ order request = lit "desc"
  /\ per_page request = lit "25".
Proof.
  intros Hs He request from to languageQuery.
  assert (Hq : q request
               = languageQuery ++ lit "created:" ++ from ++ lit ".." ++ to).
  { subst request from to languageQuery.
    rewrite <- !format_isoUTCSeconds by assumption.
    unfold buildRequest, q, formatDateRange, truthyOpt.
    destruct (p_language params) as [l|]; [destruct (truthy l)|]; reflexivity. }
  split; [reflexivity|]. split; [exact Hq|]. split.
  - intros ->. rewrite Hq. subst from to. unfold LocalTime.
    now rewrite !Z.mul_0_l, !Z.add_0_r.
  - subst from to. rewrite <- !format_isoUTCSeconds by assumption.
    repeat split; try reflexivity;
      apply format_iso_shape; unfold fourDigitYear; lia.
Qed.

Lemma fetchRepositories_request_witness :
  let params :=
    {| p_language := Some (lit "rust");
       p_dateRange := getDateRange 180 sampleNow week 1;
       p_token := None |} in
  1 <= getFullYear 180 (start (p_dateRange params)) <= 9999 /\
  1 <= getFullYear 180 (end_ (p_dateRange params)) <= 9999 /\
  q (buildRequest 180 params)
  = lit "language:rust created:2025-10-19T00:00:00Z..2025-10-26T23:59:59Z".
Proof.
  intros params.
  assert (Hs : 1 <= getFullYear 180 (start (p_dateRange params)) <= 9999)
    by (vm_compute; split; discriminate).
  assert (He : 1 <= getFullYear 180 (end_ (p_dateRange params)) <= 9999)
    by (vm_compute; split; discriminate).
  split; [exact Hs | split; [exact He |]].
  destruct (fetchRepositories_request 180 params Hs He) as (_ & Hq & _).
  rewrite Hq. vm_compute. reflexivity.
Defined.

(** The query prints the fields of the local clock: three hours east of
    Greenwich, 14:30:15 UTC is sent as 17:30:15. *)
Example query_timestamp_is_local :
  format 180 sampleNow isoPattern = lit "2025-11-02T17:30:15Z"
  /\ format 0 sampleNow isoPattern = lit "2025-11-02T14:30:15Z"
  /\ toISOString sampleNow = lit "2025-11-02T14:30:15.123Z".
Proof. repeat split; vm_compute; reflexivity. Qed.

(** *** The group label *)

Section Label.
Variable tz : Z.

Lemma dashCount_lit_space : dashCount (lit " ") = 0%nat.
Proof. reflexivity. Qed.

Lemma dashCount_monthAbbreviated (m : Z) : dashCount (monthAbbreviated m) = 0%nat.
Proof.
  unfold monthAbbreviated. apply dashCount_nth.
  repeat constructor.
Qed.

Lemma dashCount_monthWide (m : Z) : dashCount (monthWide m) = 0%nat.
Proof.
  unfold monthWide. apply dashCount_nth.
  repeat constructor.
Qed.

Lemma dashCount_year (d : Date) : dashCount (formatToken tz d Tyyyy) = 0%nat.
Proof.
  unfold formatToken. apply dashCount_addLeadingZeros.
  pose proof (year_token_positive tz d). lia.
Qed.

Lemma dashCount_dayOfMonth (d : Date) : dashCount (formatToken tz d Td) = 0%nat.
Proof.
  unfold formatToken. apply dashCount_addLeadingZeros.
  pose proof (getDate_range tz d). lia.
Qed.

(** A formatted single date holds no dash. *)
Lemma dashCount_long_date (d : Date) :
  dashCount (format tz d [TMMMM; Tlit " "; Td; Tlit ", "; Tyyyy]) = 0%nat.
Proof.
  unfold format. cbn [map concat]. rewrite !dashCount_app.
  rewrite dashCount_year, dashCount_dayOfMonth.
  cbn [formatToken]. rewrite dashCount_monthWide. reflexivity.
Qed.

Lemma dashCount_short_date (d : Date) :
  dashCount (format tz d [TMMM; Tlit " "; Td]) = 0%nat.
Proof.
  unfold format. cbn [map concat]. rewrite !dashCount_app.
  rewrite dashCount_dayOfMonth.
  cbn [formatToken]. rewrite dashCount_monthAbbreviated. reflexivity.
Qed.

Lemma dashCount_medium_date (d : Date) :
  dashCount (format tz d [TMMM; Tlit " "; Td; Tlit ", "; Tyyyy]) = 0%nat.
Proof.
  unfold format. cbn [map concat]. rewrite !dashCount_app.
  rewrite dashCount_year, dashCount_dayOfMonth.
  cbn [formatToken]. rewrite dashCount_monthAbbreviated. reflexivity.
Qed.

End Label.

(** C6. The label of a day window is one formatted date and holds no dash;
    the label of a week or month window is two formatted dates, themselves
    free of dashes, joined by [" - "]: it holds exactly one dash. *)
Theorem formatDateRangeLabel_separator (tz : Z) (dateRange : DateRange)
    (dateJump : DateJump) :
  let label := formatDateRangeLabel tz dateRange dateJump in
  match dateJump with
  | day => dashCount label = 0%nat
  | _ =>
      let from := format tz (start dateRange) [TMMM; Tlit " "; Td] in
      let to := format tz (end_ dateRange) [TMMM; Tlit " "; Td; Tlit ", "; Tyyyy] in
      label = from ++ lit " - " ++ to
      /\ dashCount from = 0%nat /\ dashCount to = 0%nat
      /\ dashCount label = 1%nat
  end.
Proof.
  intros label. subst label.
  destruct dateJump; unfold formatDateRangeLabel.
  - apply dashCount_long_date.
  - repeat split; try apply dashCount_short_date; try apply dashCount_medium_date.
    rewrite !dashCount_app, dashCount_short_date, dashCount_medium_date. reflexivity.
  - repeat split; try apply dashCount_short_date; try apply dashCount_medium_date.
    rewrite !dashCount_app, dashCount_short_date, dashCount_medium_date. reflexivity.
Qed.

End FormatFacts.

(** ** [toISOString] determines the time value *)

Module IsoFacts.
Import Calendar DateFacts StringFacts.

Lemma time_fields (t : Z) :
  TimeWithinDay t
  = MakeTime (HourFromTime t) (MinFromTime t) (SecFromTime t) (msFromTime t).
Proof.
  unfold TimeWithinDay, MakeTime, HourFromTime, MinFromTime, SecFromTime,
    msFromTime, msPerDay, msPerHour, msPerMinute, msPerSecond.
  Z.div_mod_to_equations. lia.
Qed.

(** A time value is determined by its calendar and clock fields. *)
Lemma fields_inj (a b : Z) :
  YearFromTime a = YearFromTime b ->
  MonthFromTime a = MonthFromTime b ->
  DateFromTime a = DateFromTime b ->
  HourFromTime a = HourFromTime b ->
  MinFromTime a = MinFromTime b ->
  SecFromTime a = SecFromTime b ->
  msFromTime a = msFromTime b ->
  a = b.
Proof.
  intros Hy Hm Hd Hh Hmi Hs Hms.
  rewrite <- (MakeDate_Day a), <- (MakeDate_Day b).
  rewrite <- (MakeDay_fields a), <- (MakeDay_fields b), !time_fields.
  congruence.
Qed.

Lemma pad2_length (n : Z) : 0 <= n < 100 -> length (pad2 n) = 2%nat.
Proof.
  intros H. apply padStart_length. apply natToString_length; lia.
Qed.

Lemma pad3_length (n : Z) : 0 <= n < 1000 -> length (pad3 n) = 3%nat.
Proof.
  intros H. apply padStart_length. apply natToString_length; lia.
Qed.

Lemma padded_head (n : Z) (k : nat) :
  (0 < k)%nat ->
  exists c rest, padStart (natToString n) k c_zero = c :: rest /\ isDigit c = true.
Proof.
  intros Hk.
  pose proof (padStart_length_ge (natToString n) k) as Hl.
  pose proof (padStart_digits (natToString n) k (natToString_digits n)) as Hd.
  destruct (padStart (natToString n) k c_zero) as [|c rest]; [simpl in Hl; lia|].
  exists c, rest. split; [reflexivity|]. now inversion Hd.
Qed.

Lemma isoYear_inj (y y' : Z) : isoYear y = isoYear y' -> y = y'.
Proof.
  unfold isoYear.
  destruct ((0 <=? y) && (y <=? 9999)) eqn:Ey,
           ((0 <=? y') && (y' <=? 9999)) eqn:Ey'; intros H.
  - apply andb_prop in Ey as [Ey _]. apply andb_prop in Ey' as [Ey' _].
    apply Z.leb_le in Ey, Ey'. now apply padStart_natToString_inj in H.
  - destruct (padded_head y 4 ltac:(lia)) as (c & r & Hc & Hdig).
    rewrite Hc in H. destruct (y' <? 0); cbn in H;
      injection H as Hhead _; subst c; discriminate.
  - destruct (padded_head y' 4 ltac:(lia)) as (c & r & Hc & Hdig).
    rewrite Hc in H. destruct (y <? 0); cbn in H;
      injection H as Hhead _; subst c; discriminate.
  - destruct (Z.ltb_spec y 0), (Z.ltb_spec y' 0); cbn in H;
      try discriminate; injection H as Hpad;
      apply padStart_natToString_inj in Hpad; lia.
Qed.

Lemma toISOString_inj (a b : Date) : toISOString a = toISOString b -> a = b.
Proof.
  unfold toISOString. intros H.
  pose proof (MonthFromTime_range a). pose proof (MonthFromTime_range b).
  pose proof (DateFromTime_range a). pose proof (DateFromTime_range b).
  assert (Hh : forall t, 0 <= HourFromTime t < 100)
    by (intros t; unfold HourFromTime; pose proof (Z.mod_pos_bound (t / msPerHour) 24); lia).
  assert (Hmi : forall t, 0 <= MinFromTime t < 100)
    by (intros t; unfold MinFromTime; pose proof (Z.mod_pos_bound (t / msPerMinute) 60); lia).
  assert (Hs : forall t, 0 <= SecFromTime t < 100)
    by (intros t; unfold SecFromTime; pose proof (Z.mod_pos_bound (t / msPerSecond) 60); lia).
  assert (Hms : forall t, 0 <= msFromTime t < 1000)
    by (intros t; unfold msFromTime, msPerSecond; apply Z.mod_pos_bound; lia).
  pose proof (Hh a). pose proof (Hh b). pose proof (Hmi a). pose proof (Hmi b).
  pose proof (Hs a). pose proof (Hs b). pose proof (Hms a). pose proof (Hms b).
  apply app_inj_2 in H as [Hy H];
    [| rewrite !length_app, !pad2_length, !pad3_length by lia; reflexivity].
  apply isoYear_inj in Hy.
  apply app_inj_1 in H as [_ H]; [|reflexivity].
  apply app_inj_1 in H as [Hmo H]; [|rewrite !pad2_length by lia; reflexivity].
  apply app_inj_1 in H as [_ H]; [|reflexivity].
  apply app_inj_1 in H as [Hda H]; [|rewrite !pad2_length by lia; reflexivity].
  apply app_inj_1 in H as [_ H]; [|reflexivity].
  apply app_inj_1 in H as [Hho H]; [|rewrite !pad2_length by lia; reflexivity].
  apply app_inj_1 in H as [_ H]; [|reflexivity].
  apply app_inj_1 in H as [Hmn H]; [|rewrite !pad2_length by lia; reflexivity].
  apply app_inj_1 in H as [_ H]; [|reflexivity].
  apply app_inj_1 in H as [Hse H]; [|rewrite !pad2_length by lia; reflexivity].
  apply app_inj_1 in H as [_ H]; [|reflexivity].
  apply app_inj_1 in H as [Hmil _]; [|rewrite !pad3_length by lia; reflexivity].
  apply padStart_natToString_inj in Hmo, Hda, Hho, Hmn, Hse, Hmil; try lia.
  apply fields_inj; lia.
Qed.

End IsoFacts.

(** ** Fetching: errors and pages *)

Module FetchFacts.
Import Calendar DateFacts StringFacts IsoFacts.

(** C4. When the upstream answers with a non-success status,
    [fetchRepositories] fails with an error whose message is the message
    of the response body when the body has one (an empty message counts as
    none), and [GitHub API error: <status>] otherwise. *)
Theorem fetchRepositories_failure (tz : Z) (fetch : Request -> Response)
    (params : FetchParams) (status : Z) (body : option ErrorBody) :
  fetch (buildRequest tz params) = Failure status body ->
  fetchRepositories tz fetch params
  = Rejected (ErrorMessage
      match upstreamMessage body with
      | Some m => m
      | None => lit "GitHub API error: " ++ numToString status
      end).
Proof.
  intros H. unfold fetchRepositories. rewrite H. unfold settle, errorMessage.
  do 2 f_equal. unfold upstreamMessage, truthyOpt.
  destruct body as [[[m|]]|]; cbn [message]; try reflexivity.
  destruct (truthy m); reflexivity.
Qed.

(** HTTP 422 with body [{"message":"Validation Failed"}] fails with
    exactly that message. *)
Lemma fetchRepositories_failure_witness :
  let body := Some {| message := Some (lit "Validation Failed") |} in
  let fetch := failingUpstream 422 body in
  fetch (buildRequest 0 sampleParams) = Failure 422 body /\
  fetchRepositories 0 fetch sampleParams
  = Rejected (ErrorMessage (lit "Validation Failed")).
Proof.
  intros body fetch. split; [reflexivity|].
  apply (fetchRepositories_failure 0 fetch sampleParams 422 body). reflexivity.
Defined.

(** Without a message the error names the status. *)
Example generic_failure_message :
  fetchRepositories 0 (failingUpstream 503 None) sampleParams
  = Rejected (ErrorMessage (lit "GitHub API error: 503")).
Proof. reflexivity. Qed.

(** *** Windows depend on the local day of the clock reading only *)

Section Zone.
Variable tz : Z.

Lemma fields_same_day (t t' : Z) :
  Day t = Day t' ->
  YearFromTime t = YearFromTime t' /\ MonthFromTime t = MonthFromTime t'
  /\ DateFromTime t = DateFromTime t'.
Proof.
  intros H. unfold DateFromTime, MonthFromTime, DayWithinYear, YearFromTime.
  rewrite H. auto.
Qed.

Lemma startOfDay_same_day (d d' : Date) :
  localDay tz d = localDay tz d' -> startOfDay tz d = startOfDay tz d'.
Proof. intros H. rewrite !startOfDay_localDay. now rewrite H. Qed.

Lemma endOfDay_same_day (d d' : Date) :
  localDay tz d = localDay tz d' -> endOfDay tz d = endOfDay tz d'.
Proof. intros H. rewrite !endOfDay_localDay. now rewrite H. Qed.

Lemma subDays_same_day (n n' : Date) (k : Z) :
  localDay tz n = localDay tz n' ->
  localDay tz (subDays tz n k) = localDay tz (subDays tz n' k).
Proof.
  intros H. rewrite !subDays_shift.
  replace (n - k * msPerDay) with (n + (- k) * msPerDay) by lia.
  replace (n' - k * msPerDay) with (n' + (- k) * msPerDay) by lia.
  rewrite !localDay_shift. now rewrite H.
Qed.

Lemma subWeeks_same_day (n n' : Date) (k : Z) :
  localDay tz n = localDay tz n' ->
  localDay tz (subWeeks tz n k) = localDay tz (subWeeks tz n' k).
Proof.
  intros H. rewrite !subWeeks_shift.
  replace (n - k * (7 * msPerDay)) with (n + (- k * 7) * msPerDay) by lia.
  replace (n' - k * (7 * msPerDay)) with (n' + (- k * 7) * msPerDay) by lia.
  rewrite !localDay_shift. now rewrite H.
Qed.

Lemma subMonths_same_day (n n' : Date) (k : Z) :
  localDay tz n = localDay tz n' ->
  localDay tz (subMonths tz n k) = localDay tz (subMonths tz n' k).
Proof.
  intros H. unfold subMonths. rewrite !addMonths_localDay.
  destruct (fields_same_day (LocalTime tz n) (LocalTime tz n') H) as (Hy & Hm & Hd).
  unfold localMonth, monthIndex, getDate. now rewrite Hy, Hm, Hd.
Qed.

Lemma getDateRange_same_day (n n' : Date) (dateJump : DateJump) (offset : Z) :
  localDay tz n = localDay tz n' ->
  getDateRange tz n dateJump offset = getDateRange tz n' dateJump offset.
Proof.
  intros H. destruct dateJump; unfold getDateRange.
  - rewrite (startOfDay_same_day _ _ (subDays_same_day n n' offset H)).
    rewrite (endOfDay_same_day _ _ (subDays_same_day n n' offset H)).
    reflexivity.
  - rewrite (startOfDay_same_day _ _ (subWeeks_same_day n n' (offset + 1) H)).
    rewrite (endOfDay_same_day _ _ (subWeeks_same_day n n' offset H)).
    reflexivity.
  - rewrite (startOfDay_same_day _ _ (subMonths_same_day n n' (offset + 1) H)).
    rewrite (endOfDay_same_day _ _ (subMonths_same_day n n' offset H)).
    reflexivity.
Qed.

(** A larger offset gives a window that starts earlier. *)
Lemma getDateRange_start_decreasing (now : Date) (dateJump : DateJump) (a b : Z) :
  a < b ->
  start (getDateRange tz now dateJump b) < start (getDateRange tz now dateJump a).
Proof.
  intros H.
  assert (Hlt : forall d1 d2, localDay tz d1 < localDay tz d2 ->
                              startOfDay tz d1 < startOfDay tz d2).
  { intros d1 d2 Hd. pose proof (startOfDay_lt tz d1 d2 Hd).
    unfold msPerDay in *. lia. }
  destruct dateJump; cbn [getDateRange start]; apply Hlt.
  - rewrite !subDays_shift.
    replace (now - b * msPerDay) with (now + (- b) * msPerDay) by lia.
    replace (now - a * msPerDay) with (now + (- a) * msPerDay) by lia.
    rewrite !localDay_shift. lia.
  - rewrite !subWeeks_shift.
    replace (now - (b + 1) * (7 * msPerDay))
      with (now + (- (b + 1) * 7) * msPerDay) by lia.
    replace (now - (a + 1) * (7 * msPerDay))
      with (now + (- (a + 1) * 7) * msPerDay) by lia.
    rewrite !localDay_shift. lia.
  - apply subMonths_localDay_lt. lia.
Qed.

Lemma windowGroup_key_inj (now : Date) (dateJump : DateJump) (a b : Z)
    (ra rb : list Repository) :
  groupKey (windowGroup tz now dateJump a ra)
  = groupKey (windowGroup tz now dateJump b rb) -> a = b.
Proof.
  unfold groupKey, windowGroup. cbn [group_start group_end]. intros H.
  injection H as Hs _. apply toISOString_inj in Hs.
  destruct (Z.lt_trichotomy a b) as [Hlt|[Heq|Hgt]]; [|exact Heq|].
  - pose proof (getDateRange_start_decreasing now dateJump a b Hlt). lia.
  - pose proof (getDateRange_start_decreasing now dateJump b a Hgt). lia.
Qed.

(** *** Pages *)

Variable fetch : Request -> Response.
Variable prefs : Preferences.

(** The parameter of the next page is the number of pages fetched. *)
Lemma nextPageParam_length (data : InfiniteData) :
  nextPageParam data = Z.of_nat (length (pages data)).
Proof. unfold nextPageParam. destruct (pages data); reflexivity. Qed.

Lemma fetchNextPage_fulfilled (result : GitHubSearchResponse) (now : Date)
    (data : InfiniteData) :
  (forall request, fetch request = Success 200 (Some result)) ->
  fetchNextPage tz fetch prefs now data
  = {| pages := pages data
                  ++ [windowGroup tz now (pref_dateJump prefs)
                        (nextPageParam data) (items result)];
       pageParams := pageParams data ++ [nextPageParam data];
       error := None |}.
Proof.
  intros H. unfold fetchNextPage, queryFn, fetchRepositories.
  rewrite H. reflexivity.
Qed.

End Zone.




End FetchFacts.

(** ** The bookmarks store *)

Module BookmarkFacts.

#[local] Set Warnings "-clear-no-such-hyp".

Lemma elem_of_listedIds (x : Z) (state : BookmarksState) :
  x ∈ listedIds state <-> exists r, id r = x /\ In r (bookmarks state).
Proof.
  unfold listedIds. rewrite elem_of_list_to_set, list_elem_of_In, in_map_iff.
  reflexivity.
Qed.

Lemma idsMirrorList_addBookmark (repo : Repository) (state : BookmarksState) :
  idsMirrorList state -> idsMirrorList (addBookmark repo state).
Proof.
  unfold idsMirrorList, listedIds, addBookmark. cbn. intros ->. set_solver.
Qed.

Lemma idsMirrorList_removeBookmark (repoId : Z) (state : BookmarksState) :
  idsMirrorList state -> idsMirrorList (removeBookmark repoId state).
Proof.
  unfold idsMirrorList. intros H. apply set_eq. intros x.
  rewrite elem_of_listedIds. unfold removeBookmark. cbn.
  rewrite elem_of_filter, H, elem_of_listedIds. split.
  - intros (Hne & r & Hid & Hin). exists r. split; [exact Hid|].
    apply filter_In. split; [exact Hin|].
    apply negb_true_iff, Z.eqb_neq. congruence.
  - intros (r & Hid & Hin). apply filter_In in Hin as [Hin Hne].
    apply negb_true_iff, Z.eqb_neq in Hne. split; [congruence | eauto].
Qed.

Lemma notesOnBookmarked_removeBookmark (repoId : Z) (state : BookmarksState) :
  notesOnBookmarked state -> notesOnBookmarked (removeBookmark repoId state).
Proof.
  unfold notesOnBookmarked, removeBookmark. cbn. intros H x.
  rewrite dom_delete_L, elem_of_difference, elem_of_filter, elem_of_singleton.
  intros [Hx Hne]. split; [exact Hne | now apply H].
Qed.

Lemma storeInvariant_initial : storeInvariant initialState.
Proof.
  split.
  - reflexivity.
  - unfold notesOnBookmarked. cbn. rewrite dom_empty_L. set_solver.
Qed.

Lemma storeInvariant_addBookmark (repo : Repository) (state : BookmarksState) :
  storeInvariant state -> storeInvariant (addBookmark repo state).
Proof.
  intros [Hi Hn]. split; [now apply idsMirrorList_addBookmark|].
  unfold notesOnBookmarked, addBookmark in *. cbn. set_solver.
Qed.

Lemma storeInvariant_removeBookmark (repoId : Z) (state : BookmarksState) :
  storeInvariant state -> storeInvariant (removeBookmark repoId state).
Proof.
  intros [Hi Hn]. split;
    [now apply idsMirrorList_removeBookmark
    | now apply notesOnBookmarked_removeBookmark].
Qed.

Lemma storeInvariant_toggleBookmark (repo : Repository) (state : BookmarksState) :
  storeInvariant state -> storeInvariant (toggleBookmark repo state).
Proof.
  intros H. unfold toggleBookmark. destruct (isBookmarked (id repo) state).
  - now apply storeInvariant_removeBookmark.
  - now apply storeInvariant_addBookmark.
Qed.

(** *** Blank notes *)

Lemma blank_trimStart (s : jsstring) : blank (trimStart s) = blank s.
Proof.
  induction s as [|c s IH]; [reflexivity|]. cbn [trimStart].
  destruct (isWhiteSpace c) eqn:E; cbn [blank forallb]; rewrite E; auto.
Qed.

Lemma trimStart_nil (s : jsstring) : trimStart s = [] <-> blank s = true.
Proof.
  induction s as [|c s IH]; [easy|]. cbn [trimStart blank forallb].
  destruct (isWhiteSpace c); [exact IH | easy].
Qed.

Lemma blank_rev (s : jsstring) : blank (rev s) = blank s.
Proof.
  unfold blank. induction s as [|c s IH]; [reflexivity|].
  cbn [rev forallb]. rewrite forallb_app, IH. cbn. rewrite andb_true_r.
  apply andb_comm.
Qed.

(** [note.trim()] is truthy exactly when the note is not blank. *)
Lemma truthy_trim (note : jsstring) : truthy (trim note) = negb (blank note).
Proof.
  unfold trim, trimEnd.
  destruct (blank note) eqn:E.
  - apply trimStart_nil in E. rewrite E. reflexivity.
  - assert (Hne : trimStart (rev (trimStart note)) <> []).
    { rewrite trimStart_nil, blank_rev, blank_trimStart, E. discriminate. }
    destruct (trimStart (rev (trimStart note))) as [|c l]; [congruence|].
    cbn [rev]. destruct (rev l); reflexivity.
Qed.

Lemma lookup_setNote (repoId : Z) (note : jsstring) (state : BookmarksState) :
  notes (setNote repoId note state) !! repoId
  = if blank note then None else Some note.
Proof.
  unfold setNote. cbn [notes]. rewrite truthy_trim.
  destruct (blank note); cbn [negb].
  - apply lookup_delete_eq.
  - apply lookup_insert_eq.
Qed.

(** C9. [setNote] with an empty or white-space-only string removes the
    note of that repository, so that [getNote] finds nothing; with any
    other string it stores the note as given. *)
Theorem setNote_getNote (repoId : Z) (note : jsstring) (state : BookmarksState) :
  getNote repoId (setNote repoId note state)
  = if blank note then None else Some note.
Proof. apply lookup_setNote. Qed.

Example blank_notes_are_removed :
  let state := setNote 7 (lit "read later") (addBookmark (sampleRepository 7) initialState) in
  getNote 7 state = Some (lit "read later")
  /\ getNote 7 (setNote 7 (lit "  ") state) = None
  /\ getNote 7 (setNote 7 [] state) = None
  /\ getNote 7 (setNote 7 [9; 10; 160; 8202; 12288]%N state) = None.
Proof. cbn zeta. unfold getNote. rewrite !lookup_setNote. repeat split. Qed.

(** C8, as stated, fails: a note set for a repository that is not
    bookmarked breaks the invariant. *)
Lemma setNote_counterexample :
  storeInvariant initialState
  /\ ~ storeInvariant (setNote 1 (lit "todo") initialState).
Proof.
  split; [apply storeInvariant_initial|].
  intros [_ Hn]. unfold notesOnBookmarked in Hn.
  assert (H : (1 : Z) ∈ dom (notes (setNote 1 (lit "todo") initialState))).
  { apply elem_of_dom. exists (lit "todo"). apply lookup_setNote. }
  apply Hn in H. cbn in H. set_solver.
Qed.

(** C8, amended. The invariant of the store (the id set is the set of
    ids of the listed repositories, and notes are kept for bookmarked
    repositories only) is preserved by [addBookmark], [removeBookmark] and
    [toggleBookmark]; [removeBookmark] also deletes the note of the removed
    repository. [setNote] keeps the id set in step with the list, and
    preserves the whole invariant when the repository is bookmarked or the
    note is blank. *)
Theorem store_invariant_preserved (state : BookmarksState) (repo : Repository)
    (repoId : Z) (note : jsstring) :
  storeInvariant state ->
  storeInvariant (addBookmark repo state)
  /\ storeInvariant (removeBookmark repoId state)
  /\ storeInvariant (toggleBookmark repo state)
  /\ getNote repoId (removeBookmark repoId state) = None
  /\ idsMirrorList (setNote repoId note state)
  /\ (isBookmarked repoId state || blank note = true ->
      storeInvariant (setNote repoId note state)).
Proof.
  intros Hinv.
  split; [now apply storeInvariant_addBookmark|].
  split; [now apply storeInvariant_removeBookmark|].
  split; [now apply storeInvariant_toggleBookmark|].
  split; [apply lookup_delete_eq|].
  destruct Hinv as [Hi Hn].
  split; [exact Hi|].
  intros Hcase. split; [exact Hi|].
  unfold notesOnBookmarked, setNote in *. cbn [notes bookmarkedIds].
  rewrite truthy_trim. apply orb_prop in Hcase as [Hb|Hb].
  - unfold isBookmarked in Hb. apply bool_decide_eq_true in Hb.
    destruct (blank note); cbn [negb].
    + rewrite dom_delete_L. set_solver.
    + rewrite dom_insert_L. set_solver.
  - rewrite Hb. cbn [negb]. rewrite dom_delete_L. set_solver.
Qed.

Lemma store_invariant_preserved_witness :
  let state := addBookmark (sampleRepository 7) initialState in
  storeInvariant state
  /\ storeInvariant (setNote 7 (lit "read later") state)
  /\ storeInvariant (removeBookmark 7 (setNote 7 (lit "read later") state)).
Proof.
  intros state.
  assert (H0 : storeInvariant state)
    by (split; vm_compute; [reflexivity | intros x H; discriminate H]).
  split; [exact H0|].
  destruct (store_invariant_preserved state (sampleRepository 7) 7
              (lit "read later") H0) as (_ & _ & _ & _ & _ & Hset).
  assert (H1 : storeInvariant (setNote 7 (lit "read later") state))
    by (apply Hset; reflexivity).
  split; [exact H1|].
  apply (store_invariant_preserved _ (sampleRepository 7) 7 [] H1).
Defined.

End BookmarkFacts.

(** ** The RSS feed *)

Module RssFacts.

Lemma replaceAll_app (c : N) (r s1 s2 : jsstring) :
  replaceAll c r (s1 ++ s2) = replaceAll c r s1 ++ replaceAll c r s2.
Proof.
  induction s1 as [|x s1 IH]; [reflexivity|].
  cbn [replaceAll app]. rewrite IH. now rewrite app_assoc.
Qed.

Lemma escapeXml_app (s1 s2 : jsstring) :
  escapeXml (s1 ++ s2) = escapeXml s1 ++ escapeXml s2.
Proof. unfold escapeXml. now rewrite !replaceAll_app. Qed.

(** The five passes over a single character amount to [escapeChar]. *)
Lemma escapeXml_char (c : N) : escapeXml [c] = escapeChar c.
Proof.
  unfold escapeXml, escapeChar, c_amp, c_lt, c_gt, c_quot, c_apos.
  cbn [replaceAll app].
  destruct (N.eqb_spec c 38) as [->|H1]; [reflexivity|].
  cbn [replaceAll app].
  destruct (N.eqb_spec c 60) as [->|H2]; [reflexivity|].
  cbn [replaceAll app].
  destruct (N.eqb_spec c 62) as [->|H3]; [reflexivity|].
  cbn [replaceAll app].
  destruct (N.eqb_spec c 34) as [->|H4]; [reflexivity|].
  cbn [replaceAll app].
  destruct (N.eqb_spec c 39) as [->|H5]; reflexivity.
Qed.

(** [escapeXml] replaces every character by its entity reference, in a
    single pass. *)
Lemma escapeXml_single_pass (text : jsstring) :
  escapeXml text = concat (map escapeChar text).
Proof.
  induction text as [|c text IH]; [reflexivity|].
  change (c :: text) with ([c] ++ text).
  rewrite escapeXml_app, escapeXml_char, IH. reflexivity.
Qed.

Lemma escapeChar_cases (c : N) :
  (isSpecial c = true /\ In (escapeChar c) entities)
  \/ (isSpecial c = false /\ escapeChar c = [c]).
Proof.
  unfold escapeChar, isSpecial, entities.
  destruct (c =? c_amp)%N; [left; cbn; auto|].
  destruct (c =? c_lt)%N; [left; cbn; auto|].
  destruct (c =? c_gt)%N; [left; cbn; auto|].
  destruct (c =? c_quot)%N; [left; cbn; auto 6|].
  destruct (c =? c_apos)%N; [left; cbn; auto 7|].
  right. auto.
Qed.

Lemma escapeXml_escaped (text : jsstring) : escaped (escapeXml text).
Proof.
  rewrite escapeXml_single_pass.
  induction text as [|c text IH]; cbn [map concat]; [constructor|].
  destruct (escapeChar_cases c) as [[_ He]|[Hs ->]].
  - now apply escaped_entity.
  - now apply escaped_plain.
Qed.

(** Escaped text holds no angle bracket and no quote character. *)
Lemma escaped_no_markup (s : jsstring) :
  escaped s ->
  Forall (fun c => c <> c_lt /\ c <> c_gt /\ c <> c_quot /\ c <> c_apos) s.
Proof.
  induction 1 as [|c s Hc _ IH|e s He _ IH].
  - constructor.
  - constructor; [|exact IH].
    unfold isSpecial in Hc.
    repeat (apply orb_false_elim in Hc as [Hc ?]).
    repeat split; now apply N.eqb_neq.
  - apply Forall_app. split; [|exact IH].
    cbn in He. repeat (destruct He as [<-|He]; [repeat constructor; discriminate|]).
    destruct He.
Qed.

Lemma app_split (l1 l2 pre post : jsstring) (c : N) :
  l1 ++ l2 = pre ++ c :: post ->
  (exists post', l1 = pre ++ c :: post' /\ post = post' ++ l2)
  \/ (exists pre', pre = l1 ++ pre' /\ l2 = pre' ++ c :: post).
Proof.
  revert pre. induction l1 as [|x l1 IH]; intros pre H.
  - right. exists pre. auto.
  - destruct pre as [|p pre]; cbn in H; injection H as -> H.
    + left. exists l1. auto.
    + destruct (IH pre H) as [(post' & -> & ->)|(pre' & -> & ->)].
      * left. exists post'. auto.
      * right. exists pre'. auto.
Qed.

(** An entity reference starts with an ampersand and holds no other. *)
Lemma entity_shape (e : jsstring) :
  In e entities -> exists t, e = c_amp :: t /\ ~ In c_amp t.
Proof.
  cbn. intros He.
  repeat (destruct He as [<-|He];
          [eexists; split; [reflexivity|];
           cbn; intros Hin;
           repeat (destruct Hin as [Hin|Hin]; [discriminate|]); exact Hin|]).
  destruct He.
Qed.

(** In escaped text every ampersand starts an entity reference. *)
Lemma escaped_ampersand (s : jsstring) :
  escaped s ->
  forall pre post, s = pre ++ c_amp :: post ->
  exists e rest, In e entities /\ c_amp :: post = e ++ rest.
Proof.
  induction 1 as [|c s Hc _ IH|e s He Hs IH]; intros pre post Heq.
  - destruct pre; discriminate.
  - destruct pre as [|p pre]; cbn in Heq; injection Heq as -> Heq.
    + discriminate.
    + eauto.
  - destruct (app_split _ _ _ _ _ Heq) as [(post' & He' & ->)|(pre' & -> & Hs')].
    + destruct (entity_shape e He) as (t & Het & Hnot).
      destruct pre as [|p pre].
      * exists e, s. split; [exact He|]. rewrite He'. reflexivity.
      * rewrite Het in He'. cbn in He'. injection He' as _ Ht.
        exfalso. apply Hnot. rewrite Ht. apply in_or_app. right. now left.
    + eauto.
Qed.

(** *** Substrings *)

Lemma contains_here (sub post : jsstring) : contains sub (sub ++ post).
Proof. exists [], post. reflexivity. Qed.

Lemma contains_app_r (sub a b : jsstring) : contains sub b -> contains sub (a ++ b).
Proof.
  intros (pre & post & ->). exists (a ++ pre), post. now rewrite <- app_assoc.
Qed.

Lemma contains_app_l (sub a b : jsstring) : contains sub a -> contains sub (a ++ b).
Proof.
  intros (pre & post & ->). exists pre, (post ++ b). now rewrite <- !app_assoc.
Qed.

Lemma contains_trans (a b c : jsstring) :
  contains a b -> contains b c -> contains a c.
Proof.
  intros (p1 & q1 & ->) (p2 & q2 & ->).
  exists (p2 ++ p1), (q1 ++ q2). now rewrite <- !app_assoc.
Qed.

Lemma contains_join (x : jsstring) (l : list jsstring) :
  In x l -> contains x (join [] l).
Proof.
  induction l as [|y l IH]; [easy|]. intros [->|Hin].
  - destruct l; cbn [join]; [exists [], []; now rewrite app_nil_r|].
    apply contains_here.
  - destruct l as [|z l]; [easy|]. cbn [join app].
    apply contains_app_r. now apply IH.
Qed.

(** Walk along a concatenation up to the piece looked for. *)
Ltac find_piece :=
  lazymatch goal with
  | |- contains ?x (?x ++ _) => apply contains_here
  | |- contains _ (join _ _ ++ _) => apply contains_app_l, contains_join
  | |- contains _ (_ ++ _) => apply contains_app_r; find_piece
  end.

Section Feed.
Variable host : Host.

Lemma feedItem_title (repo : Repository) :
  contains (element "title" (escapeXml (full_name repo))) (feedItem host repo).
Proof.
  unfold feedItem. find_piece.
Qed.

Lemma feedItem_author (repo : Repository) :
  contains (element "author" (escapeXml (login (owner repo)))) (feedItem host repo).
Proof.
  unfold feedItem. find_piece.
Qed.

Lemma feed_items (repositories : list Repository) (options : RSSOptions)
    (repo : Repository) :
  In repo repositories ->
  contains (feedItem host repo) (generateRSSFeed host repositories options).
Proof.
  intros Hin. unfold generateRSSFeed. cbv zeta.
  find_piece. now apply in_map.
Qed.

Lemma feed_title (repositories : list Repository) (options : RSSOptions) :
  contains (element "title" (escapeXml (feedTitle (languages options))))
           (generateRSSFeed host repositories options).
Proof.
  unfold generateRSSFeed. cbv zeta.
  find_piece.
Qed.

Lemma feed_description (repositories : list Repository) (options : RSSOptions) :
  contains
    (element "description"
       (escapeXml (feedDescription (languages options) (dateJump options))))
    (generateRSSFeed host repositories options).
Proof.
  unfold generateRSSFeed. cbv zeta.
  find_piece.
Qed.

End Feed.

(** C10. [escapeXml] replaces every occurrence of the ampersand, the two
    angle brackets, the double quote and the apostrophe by its entity
    reference: its result is the text with each character replaced by
    [escapeChar], it holds no angle bracket and no quote character, and
    every ampersand in it starts one of the five entity references.
    [generateRSSFeed] puts the escaped channel title and description, and
    for each repository the escaped name and owner, into the feed. *)
Theorem escapeXml_spec (text : jsstring) (host : Host)
    (repositories : list Repository) (options : RSSOptions) :
  escapeXml text = concat (map escapeChar text)
  /\ Forall (fun c => c <> c_lt /\ c <> c_gt /\ c <> c_quot /\ c <> c_apos)
            (escapeXml text)
  /\ (forall pre post, escapeXml text = pre ++ c_amp :: post ->
      exists e rest, In e entities /\ c_amp :: post = e ++ rest)
  /\ (let feed := generateRSSFeed host repositories options in
      contains (element "title" (escapeXml (feedTitle (languages options)))) feed
      /\ contains (element "description"
                     (escapeXml (feedDescription (languages options)
                                   (dateJump options)))) feed
      /\ Forall (fun repo =>
           contains (element "title" (escapeXml (full_name repo))) feed
           /\ contains (element "author" (escapeXml (login (owner repo)))) feed)
           repositories).
Proof.
  split; [apply escapeXml_single_pass|].
  split; [apply escaped_no_markup, escapeXml_escaped|].
  split; [apply escaped_ampersand, escapeXml_escaped|].
  cbv zeta.
  split; [apply feed_title|]. split; [apply feed_description|].
  apply List.Forall_forall. intros repo Hin.
  pose proof (feed_items host repositories options repo Hin) as Hitem.
  split; eapply contains_trans; eauto using feedItem_title, feedItem_author.
Qed.

Example escapeXml_example :
  escapeXml (lit "Tom & Jerry's <b>") = lit "Tom &amp; Jerry&apos;s &lt;b&gt;".
Proof. reflexivity. Qed.

End RssFacts.

(* ===================================================================== *)
(** * Further properties *)
(* ===================================================================== *)

(** ** More on the date windows *)

Module WindowExtras.
Import Calendar DateFacts StringFacts FormatFacts FetchFacts.

Section Zone.
Variable tz : Z.

Lemma subMonths_zero (d : Date) : subMonths tz d 0 = d.
Proof. reflexivity. Qed.

Lemma endOfDay_lt (d1 d2 : Date) :
  localDay tz d1 < localDay tz d2 -> endOfDay tz d1 < endOfDay tz d2.
Proof.
  intros H. rewrite !endOfDay_startOfDay.
  pose proof (startOfDay_lt tz d1 d2 H). unfold msPerDay in *. lia.
Qed.

Lemma getDateRange_end_decreasing (now : Date) (dateJump : DateJump) (a b : Z) :
  a < b ->
  end_ (getDateRange tz now dateJump b) < end_ (getDateRange tz now dateJump a).
Proof.
  intros H. destruct dateJump; cbn [getDateRange end_]; apply endOfDay_lt.
  - rewrite !subDays_shift.
    replace (now - b * msPerDay) with (now + (- b) * msPerDay) by lia.
    replace (now - a * msPerDay) with (now + (- a) * msPerDay) by lia.
    rewrite !localDay_shift. lia.
  - rewrite !subWeeks_shift.
    replace (now - b * (7 * msPerDay)) with (now + (- b * 7) * msPerDay) by lia.
    replace (now - a * (7 * msPerDay)) with (now + (- a * 7) * msPerDay) by lia.
    rewrite !localDay_shift. lia.
  - now apply subMonths_localDay_lt.
Qed.

(** The number of days between the days [k + 1] and [k] months back. *)
Lemma subMonths_localDay_step (d : Date) (k : Z) :
  28 <= localDay tz (subMonths tz d k) - localDay tz (subMonths tz d (k + 1)) <= 31.
Proof.
  unfold subMonths. rewrite !addMonths_localDay.
  pose proof (getDate_le_monthLength tz d) as Hd.
  pose proof (firstOfMonth_step (localMonth tz d + - (k + 1))) as Hp.
  pose proof (firstOfMonth_step (localMonth tz d + - k)) as Hc.
  unfold monthLength.
  replace (localMonth tz d + - (k + 1) + 1) with (localMonth tz d + - k) in * by lia.
  generalize dependent (getDate tz d). intros g Hd.
  hide_months. lia.
Qed.

Lemma local_clock_startOfDay (d : Date) :
  getHours tz (startOfDay tz d) = 0 /\ getMinutes tz (startOfDay tz d) = 0
  /\ getSeconds tz (startOfDay tz d) = 0.
Proof.
  unfold getHours, getMinutes, getSeconds. rewrite startOfDay_localDay, LocalTime_UTC.
  generalize (localDay tz d). intros D.
  unfold HourFromTime, MinFromTime, SecFromTime, msPerDay, msPerHour,
    msPerMinute, msPerSecond.
  repeat split; Z.div_mod_to_equations; lia.
Qed.

Lemma local_clock_endOfDay (d : Date) :
  getHours tz (endOfDay tz d) = 23 /\ getMinutes tz (endOfDay tz d) = 59
  /\ getSeconds tz (endOfDay tz d) = 59.
Proof.
  unfold getHours, getMinutes, getSeconds. rewrite endOfDay_localDay.
  unfold LocalTime, UTC.
  generalize (localDay tz d). intros D.
  unfold HourFromTime, MinFromTime, SecFromTime, msPerDay, msPerHour,
    msPerMinute, msPerSecond.
  repeat split; Z.div_mod_to_equations; lia.
Qed.

(** Every window starts at the start of a day and ends at the end of one. *)
Lemma getDateRange_whole_days (now : Date) (dateJump : DateJump) (offset : Z) :
  exists d1 d2,
    start (getDateRange tz now dateJump offset) = startOfDay tz d1 /\
    end_ (getDateRange tz now dateJump offset) = endOfDay tz d2.
Proof. destruct dateJump; cbn [getDateRange start end_]; eauto. Qed.

End Zone.

(** X1. The windows of the day cadence tile: each is one day less a
    millisecond wide, and the next more recent one starts a millisecond
    after it ends. *)
Theorem day_windows_tile (tz : Z) (now : Date) (N : Z) :
  end_ (getDateRange tz now day N) - start (getDateRange tz now day N)
  = msPerDay - 1
  /\ start (getDateRange tz now day (N - 1))
     = end_ (getDateRange tz now day N) + 1.
Proof.
  cbn [getDateRange start end_].
  rewrite endOfDay_localDay, !startOfDay_localDay, !subDays_shift.
  replace (now - (N - 1) * msPerDay) with (now - N * msPerDay + 1 * msPerDay) by lia.
  rewrite localDay_shift. unfold UTC, msPerDay. lia.
Qed.

(** X2. In a local zone at a fixed offset from UTC, the window of offset
    0 contains the present moment, for every cadence. *)
Theorem first_window_contains_now (tz : Z) (now : Date) (dateJump : DateJump) :
  let r := getDateRange tz now dateJump 0 in
  start r <= now <= end_ r.
Proof.
  pose proof (startOfDay_le tz now) as Hnow.
  destruct dateJump; cbn [getDateRange start end_].
  - rewrite subDays_shift, Z.sub_0_r, endOfDay_startOfDay. lia.
  - rewrite !subWeeks_shift, Z.sub_0_r, endOfDay_startOfDay.
    pose proof (startOfDay_le tz (now - (0 + 1) * (7 * msPerDay))) as H.
    unfold msPerDay in *. lia.
  - rewrite subMonths_zero, endOfDay_startOfDay.
    pose proof (subMonths_localDay_lt tz now 0 (0 + 1) ltac:(lia)) as Hlt.
    rewrite subMonths_zero in Hlt.
    pose proof (startOfDay_lt tz _ _ Hlt). unfold msPerDay in *. lia.
Qed.

(** X3. In a local zone at a fixed offset from UTC, a month window
    reaches from the start of a day to the end of the day 28 to 31 days
    later: it is between 29 and 32 days wide, less a millisecond. *)
Theorem month_window_width (tz : Z) (now : Date) (offset : Z) :
  let r := getDateRange tz now month offset in
  29 * msPerDay - 1 <= end_ r - start r <= 32 * msPerDay - 1.
Proof.
  cbn [getDateRange start end_].
  rewrite endOfDay_localDay, startOfDay_localDay.
  pose proof (subMonths_localDay_step tz now offset) as H.
  unfold UTC, msPerDay. lia.
Qed.

(** X4. Windows go back in time: a larger offset gives a window that
    starts earlier and ends earlier. *)
Theorem windows_go_back (tz : Z) (now : Date) (dateJump : DateJump) (a b : Z) :
  a < b ->
  start (getDateRange tz now dateJump b) < start (getDateRange tz now dateJump a)
  /\ end_ (getDateRange tz now dateJump b) < end_ (getDateRange tz now dateJump a).
Proof.
  intros H. split.
  - now apply getDateRange_start_decreasing.
  - now apply getDateRange_end_decreasing.
Qed.

Lemma windows_go_back_witness :
  1 < 4 /\
  start (getDateRange 60 sampleNow month 4) < start (getDateRange 60 sampleNow month 1)
  /\ end_ (getDateRange 60 sampleNow month 4) < end_ (getDateRange 60 sampleNow month 1).
Proof. split; [lia | apply (windows_go_back 60 sampleNow month 1 4); lia]. Defined.

(** X5. The window depends on the clock only through the local calendar
    day: two readings on the same day give the same window. *)
Theorem window_fixed_within_a_day (tz : Z) (now now' : Date)
    (dateJump : DateJump) (offset : Z) :
  localDay tz now = localDay tz now' ->
  getDateRange tz now dateJump offset = getDateRange tz now' dateJump offset.
Proof. apply getDateRange_same_day. Qed.

Lemma window_fixed_within_a_day_witness :
  localDay 60 sampleNow = localDay 60 (sampleNow + 3600000)
  /\ getDateRange 60 sampleNow month 2 = getDateRange 60 (sampleNow + 3600000) month 2.
Proof.
  assert (H : localDay 60 sampleNow = localDay 60 (sampleNow + 3600000))
    by (vm_compute; reflexivity).
  split; [exact H | apply (window_fixed_within_a_day 60 _ _ month 2 H)].
Defined.

(** X6. In a local zone at a fixed offset from UTC, the search query of
    a window covers whole local days: its first timestamp reads 00:00:00
    and its second 23:59:59. *)
Theorem query_covers_whole_days (tz : Z) (now : Date) (dateJump : DateJump)
    (offset : Z) :
  let r := getDateRange tz now dateJump offset in
  let date := [Tyyyy; Tlit "-"; TMM; Tlit "-"; Tdd] in
  formatDateRange tz r
  = lit "created:" ++ format tz (start r) date ++ lit "T00:00:00Z"
      ++ lit ".." ++ format tz (end_ r) date ++ lit "T23:59:59Z".
Proof.
  cbv zeta. unfold formatDateRange.
  destruct (getDateRange_whole_days tz now dateJump offset) as (d1 & d2 & -> & ->).
  destruct (local_clock_startOfDay tz d1) as (Hh & Hm & Hs).
  destruct (local_clock_endOfDay tz d2) as (Hh' & Hm' & Hs').
  unfold format, isoPattern.
  cbn [map concat formatToken].
  rewrite Hh, Hm, Hs, Hh', Hm', Hs'.
  rewrite !app_nil_r, <- !app_assoc. reflexivity.
Qed.

End WindowExtras.

(** ** Reading back the strings of [toISOString] *)

Module ParseFacts.
Import Calendar DateFacts StringFacts IsoFacts.

Lemma digitsValueAcc_uint_pos (u : Decimal.uint) (p : positive) :
  digitsValueAcc (uintChars u) (Z.pos p) = Some (Z.pos (Pos.of_uint_acc u p)).
Proof.
  revert p. induction u; intros p; cbn [uintChars digitsValueAcc Pos.of_uint_acc];
    [reflexivity | ..];
    change (isDigit _) with true; cbv iota; rewrite <- IHu; f_equal; lia.
Qed.

Lemma digitsValueAcc_uint (u : Decimal.uint) :
  digitsValueAcc (uintChars u) 0 = Some (Z.of_N (Pos.of_uint u)).
Proof.
  induction u; cbn [uintChars digitsValueAcc Pos.of_uint]; [reflexivity | ..];
    change (isDigit _) with true; cbv iota;
    [exact IHu | ..];
    match goal with
    | |- digitsValueAcc _ ?acc = _ =>
        let v := eval vm_compute in acc in change acc with v
    end; apply digitsValueAcc_uint_pos.
Qed.

(** A number is read back from its decimal notation, padded or not. *)
Lemma digitsValue_padded (n : Z) (k : nat) :
  0 <= n -> digitsValueAcc (padStart (natToString n) k c_zero) 0 = Some n.
Proof.
  intros Hn. unfold padStart, natToString.
  rewrite repeat_zero_uint, digitsValueAcc_uint.
  change Pos.of_uint with N.of_uint.
  rewrite of_uint_zeros, DecimalN.Unsigned.of_to. f_equal. lia.
Qed.

Lemma natToString_value (n : Z) :
  0 <= n -> digitsValueAcc (natToString n) 0 = Some n.
Proof.
  intros Hn. unfold natToString. rewrite digitsValueAcc_uint.
  change Pos.of_uint with N.of_uint.
  rewrite DecimalN.Unsigned.of_to. f_equal. lia.
Qed.

Lemma digitsValueAcc_ge (s : jsstring) (acc v : Z) :
  0 <= acc -> digitsValueAcc s acc = Some v ->
  acc * 10 ^ Z.of_nat (length s) <= v.
Proof.
  revert acc. induction s as [|c s IH]; intros acc Hacc H; cbn in H.
  - injection H as <-. cbn. lia.
  - destruct (isDigit c); [|discriminate].
    apply IH in H; [|lia].
    cbn [length]. rewrite Nat2Z.inj_succ, Z.pow_succ_r by lia.
    pose proof (Z.pow_pos_nonneg 10 (Z.of_nat (length s)) ltac:(lia) ltac:(lia)).
    nia.
Qed.

Lemma nzhead_not_zero_headed (d d' : Decimal.uint) :
  Decimal.nzhead d <> D0 d'.
Proof. induction d; cbn; try discriminate. exact IHd. Qed.

(** The notation of a positive number starts with a digit other than 0. *)
Lemma to_uint_head (p : positive) :
  match Pos.to_uint p with Nil | D0 _ => False | _ => True end.
Proof.
  pose proof (DecimalPos.Unsigned.to_of (Pos.to_uint p)) as H.
  rewrite DecimalPos.Unsigned.of_to in H. cbn [N.to_uint] in H.
  pose proof (DecimalPos.Unsigned.to_uint_nonzero p) as Hz.
  pose proof (DecimalPos.Unsigned.to_uint_nonnil p) as Hn.
  destruct (Pos.to_uint p) as [|d| | | | | | | | |] eqn:E; try exact I; [congruence|].
  unfold Decimal.unorm in H. cbn [Decimal.nzhead] in H.
  destruct (Decimal.nzhead d) eqn:En; try discriminate H;
    [exact (Hz H) | exact (nzhead_not_zero_headed _ _ En)].
Qed.

Lemma natToString_length_le (n : Z) (k : nat) :
  (0 < k)%nat -> 0 <= n < 10 ^ Z.of_nat k -> (length (natToString n) <= k)%nat.
Proof.
  intros Hk Hn. pose proof (natToString_value n ltac:(lia)) as Hv.
  unfold natToString in *. destruct (Z.to_N n) as [|p] eqn:Ep.
  - cbn. lia.
  - cbn [N.to_uint] in *. pose proof (to_uint_head p) as Hh.
    destruct (Pos.to_uint p) as [|d|d|d|d|d|d|d|d|d|d]; try contradiction;
      cbn [uintChars digitsValueAcc length] in *;
      change (isDigit _) with true in Hv; cbv iota in Hv;
      apply digitsValueAcc_ge in Hv; try (vm_compute; discriminate);
      match type of Hv with
      | ?a * _ <= _ => let v := eval vm_compute in a in change a with v in Hv
      end;
      (destruct (Nat.le_gt_cases (S (length (uintChars d))) k) as [|Hgt];
       [assumption|]; exfalso;
       assert (10 ^ Z.of_nat k <= 10 ^ Z.of_nat (length (uintChars d)))
         by (apply Z.pow_le_mono_r; lia); lia).
Qed.

Lemma year_range (t : Z) : validTime t -> -999999 <= YearFromTime t <= 999999.
Proof.
  unfold validTime, maxTime, YearFromTime, Day, yearFromDay, msPerDay.
  intros H.
  assert (Hd : -100000000 <= t / 86400000 <= 100000000)
    by (Z.div_mod_to_equations; lia).
  clear H. generalize dependent (t / 86400000). intros d Hd.
  destruct (d <? _); [|destruct (_ <=? d)]; Z.div_mod_to_equations; lia.
Qed.

Lemma padded_facts (n : Z) (k : nat) :
  (0 < k)%nat -> 0 <= n < 10 ^ Z.of_nat k ->
  let s := padStart (natToString n) k c_zero in
  length s = k /\ Forall (fun c => isDigit c = true) s /\ digitsValue s = n.
Proof.
  intros Hk Hn s. subst s. split; [|split].
  - apply padStart_length. now apply natToString_length_le.
  - apply padStart_digits, natToString_digits.
  - unfold digitsValue. rewrite digitsValue_padded by lia. reflexivity.
Qed.

Lemma digit_not_sign (c : N) :
  isDigit c = true -> (c =? 43)%N = false /\ (c =? 45)%N = false.
Proof.
  unfold isDigit. intros H. apply andb_prop in H as [H1 H2].
  apply N.leb_le in H1, H2. split; apply N.eqb_neq; lia.
Qed.

Ltac explicit_digits n k s :=
  let Hl := fresh "Hl" in let Hd := fresh "Hd" in let Hv := fresh "Hv" in
  destruct (padded_facts n k ltac:(lia) ltac:(simpl; lia)) as (Hl & Hd & Hv);
  remember (padStart (natToString n) k c_zero) as s eqn:Es; clear Es;
  repeat (destruct s as [|? s]; [discriminate Hl|]);
  destruct s; [|discriminate Hl]; clear Hl;
  repeat match goal with
         | H : Forall _ (_ :: _) |- _ => inversion H; subst; clear H
         | H : Forall _ [] |- _ => clear H
         end.

Ltac literal_separators :=
  change (lit "-") with [45%N]; change (lit "+") with [43%N];
  change (lit "T") with [84%N]; change (lit ":") with [58%N];
  change (lit ".") with [46%N]; change (lit "Z") with [90%N]; cbn [app].

Ltac read_fields :=
  let v := eval vm_compute in isoTailShape in change isoTailShape with v;
  cbn [hasShape inClass N.eqb Pos.eqb slice firstn skipn Nat.sub];
  repeat match goal with
         | H : isDigit _ = true |- _ => rewrite H; clear H
         end;
  cbn [andb];
  repeat match goal with
         | H : digitsValue _ = _ |- _ => rewrite H; clear H
         end.

Lemma parseDate_toISOString (t : Z) :
  validTime t -> parseDate (toISOString t) = Some t.
Proof.
  intros Hvalid. pose proof (year_range t Hvalid) as Hy.
  pose proof (MonthFromTime_range t). pose proof (DateFromTime_range t).
  assert (0 <= HourFromTime t < 24)
    by (unfold HourFromTime; apply Z.mod_pos_bound; lia).
  assert (0 <= MinFromTime t < 60)
    by (unfold MinFromTime; apply Z.mod_pos_bound; lia).
  assert (0 <= SecFromTime t < 60)
    by (unfold SecFromTime; apply Z.mod_pos_bound; lia).
  assert (0 <= msFromTime t < 1000)
    by (unfold msFromTime, msPerSecond; apply Z.mod_pos_bound; lia).
  assert (Hback : forall y, y = YearFromTime t ->
            MakeDate (MakeDay y (MonthFromTime t + 1 - 1) (DateFromTime t))
              (MakeTime (HourFromTime t) (MinFromTime t) (SecFromTime t)
                 (msFromTime t)) = t).
  { intros y ->. replace (MonthFromTime t + 1 - 1) with (MonthFromTime t) by lia.
    rewrite MakeDay_fields, <- time_fields. apply MakeDate_Day. }
  assert (Hbound : (Z.abs t <=? maxTime) = true) by (apply Z.leb_le; exact Hvalid).
  unfold toISOString, pad2, pad3.
  explicit_digits (MonthFromTime t + 1) 2%nat smo.
  explicit_digits (DateFromTime t) 2%nat sd.
  explicit_digits (HourFromTime t) 2%nat sh.
  explicit_digits (MinFromTime t) 2%nat smi.
  explicit_digits (SecFromTime t) 2%nat sse.
  explicit_digits (msFromTime t) 3%nat sms.
  unfold isoYear.
  destruct ((0 <=? YearFromTime t) && (YearFromTime t <=? 9999)) eqn:Ey.
  - apply andb_prop in Ey as [Ey1 Ey2]. apply Z.leb_le in Ey1, Ey2.
    explicit_digits (YearFromTime t) 4%nat sy.
    literal_separators. unfold parseDate.
    match goal with
    | H : isDigit ?c = true |- context [(?c =? 43)%N] =>
        destruct (digit_not_sign _ H) as [-> ->]
    end.
    cbv beta iota zeta. cbn [firstn skipn].
    let v := eval vm_compute in (digits 4) in change (digits 4) with v.
    read_fields.
    rewrite (Hback _ (Z.mul_1_l _)), Hbound.
    repeat rewrite (proj2 (Z.leb_le _ _)) by lia. reflexivity.
  - assert (Hout : YearFromTime t < 0 \/ 9999 < YearFromTime t).
    { destruct (Z.leb_spec 0 (YearFromTime t)), (Z.leb_spec (YearFromTime t) 9999);
        cbn in Ey; try discriminate; lia. }
    explicit_digits (Z.abs (YearFromTime t)) 6%nat sy.
    destruct (Z.ltb_spec (YearFromTime t) 0) as [Hneg|Hpos];
      literal_separators; unfold parseDate;
      cbn [N.eqb Pos.eqb]; cbv beta iota zeta; cbn [firstn skipn];
      (let v := eval vm_compute in (digits 6) in change (digits 6) with v);
      read_fields.
    + rewrite (Hback (-1 * Z.abs (YearFromTime t)) ltac:(lia)), Hbound.
      repeat rewrite (proj2 (Z.leb_le _ _)) by lia.
      replace (-1 * Z.abs (YearFromTime t) =? 0) with false
        by (symmetry; apply Z.eqb_neq; lia).
      reflexivity.
    + rewrite (Hback (1 * Z.abs (YearFromTime t)) ltac:(lia)), Hbound.
      repeat rewrite (proj2 (Z.leb_le _ _)) by lia. reflexivity.
Qed.

End ParseFacts.

(** ** More on groups and pages *)

Module PageExtras.
Import Calendar DateFacts StringFacts IsoFacts FetchFacts ParseFacts.

(** X7. The label shown for a fetched group is the label of the window
    it was fetched for: the two dates survive the trip through their ISO
    strings. *)
Theorem group_label_round_trip (tz : Z) (fetch : Request -> Response)
    (prefs : Preferences) (now : Date) (pageParam : Z) (group : RepositoryGroup) :
  queryFn tz fetch prefs now pageParam = Fulfilled group ->
  validTime (start (getDateRange tz now (pref_dateJump prefs) pageParam)) ->
  validTime (end_ (getDateRange tz now (pref_dateJump prefs) pageParam)) ->
  useFormattedDateLabel tz (pref_dateJump prefs) group
  = Some (formatDateRangeLabel tz
            (getDateRange tz now (pref_dateJump prefs) pageParam)
            (pref_dateJump prefs)).
Proof.
  unfold queryFn. intros Hq Hs He.
  destruct (fetchRepositories tz fetch _) as [response|e]; [|discriminate].
  injection Hq as <-. unfold useFormattedDateLabel. cbn [group_start group_end].
  rewrite (parseDate_toISOString _ Hs), (parseDate_toISOString _ He).
  destruct (getDateRange tz now (pref_dateJump prefs) pageParam) as [s e].
  destruct (pref_dateJump prefs); reflexivity.
Qed.

Lemma group_label_round_trip_witness :
  let fetch := fixedUpstream fiveItems in
  let r := getDateRange 60 sampleNow week 2 in
  let group := windowGroup 60 sampleNow week 2 (items fiveItems) in
  queryFn 60 fetch samplePreferences sampleNow 2 = Fulfilled group
  /\ validTime (start r) /\ validTime (end_ r)
  /\ useFormattedDateLabel 60 week group = Some (lit "Oct 12 - Oct 19, 2025").
Proof.
  intros fetch r group.
  assert (Hq : queryFn 60 fetch samplePreferences sampleNow 2 = Fulfilled group)
    by reflexivity.
  assert (Hs : validTime (start r)) by (vm_compute; discriminate).
  assert (He : validTime (end_ r)) by (vm_compute; discriminate).
  split; [exact Hq | split; [exact Hs | split; [exact He |]]].
  change week with (pref_dateJump samplePreferences) at 1.
  rewrite (group_label_round_trip 60 fetch samplePreferences sampleNow 2 group Hq Hs He).
  vm_compute. reflexivity.
Defined.

Section Pages.
Variable tz : Z.
Variable fetch : Request -> Response.
Variable prefs : Preferences.
Variable result : GitHubSearchResponse.
Hypothesis fetch_fixed : forall request, fetch request = Success 200 (Some result).

Lemma fetchPages_from (n0 : Date) (clock : list Date) (data : InfiniteData) (m : nat) :
  Forall (fun now => localDay tz now = localDay tz n0) clock ->
  pages data = windowPages tz prefs result n0 m ->
  pageParams data = map Z.of_nat (seq 0 m) ->
  let data' := fetchPages tz fetch prefs clock data in
  pages data' = windowPages tz prefs result n0 (m + length clock)
  /\ pageParams data' = map Z.of_nat (seq 0 (m + length clock)).
Proof.
  revert data m. induction clock as [|now clock IH]; intros data m Hday Hp Hpp.
  - cbn. rewrite Nat.add_0_r. auto.
  - inversion Hday as [|? ? Hnow Hrest]; subst.
    cbn [fetchPages fold_left length].
    replace (m + S (length clock))%nat with (S m + length clock)%nat by lia.
    apply (IH _ (S m) Hrest).
    + rewrite (fetchNextPage_fulfilled tz fetch prefs result now data fetch_fixed).
      cbn [pages]. rewrite nextPageParam_length, Hp.
      unfold windowPages. rewrite length_map, length_seq.
      rewrite seq_S, map_app. cbn [map Nat.add]. unfold windowGroup.
      now rewrite (getDateRange_same_day tz now n0 _ _ Hnow).
    + rewrite (fetchNextPage_fulfilled tz fetch prefs result now data fetch_fixed).
      cbn [pageParams]. rewrite nextPageParam_length, Hp, Hpp.
      unfold windowPages. rewrite length_map, length_seq.
      rewrite seq_S, map_app. reflexivity.
Qed.

Lemma windowPages_keys_NoDup (now : Date) (n : nat) :
  NoDup (map groupKey (windowPages tz prefs result now n)).
Proof.
  unfold windowPages. rewrite map_map.
  apply NoDup_fmap_2_strong; [|apply NoDup_seq].
  intros a b _ _ H. apply windowGroup_key_inj in H. lia.
Qed.

End Pages.

(** X8. However many pages are fetched, page [k] is the window of offset
    [k]: with an upstream that always answers, and clock readings of one
    local day, the pages are the windows of offsets 0, 1, 2, ... in order,
    the next page parameter is their number, and no key repeats. *)
Theorem pages_follow_offsets (tz : Z) (fetch : Request -> Response)
    (prefs : Preferences) (result : GitHubSearchResponse) (n0 : Date)
    (clock : list Date) :
  (forall request, fetch request = Success 200 (Some result)) ->
  Forall (fun now => localDay tz now = localDay tz n0) clock ->
  let data := fetchPages tz fetch prefs clock initialData in
  pages data = windowPages tz prefs result n0 (length clock)
  /\ pageParams data = map Z.of_nat (seq 0 (length clock))
  /\ nextPageParam data = Z.of_nat (length clock)
  /\ NoDup (map groupKey (pages data)).
Proof.
  intros Hfetch Hday data.
  destruct (fetchPages_from tz fetch prefs result Hfetch n0 clock initialData 0
              Hday eq_refl eq_refl) as [Hp Hpp].
  cbn [Nat.add] in Hp, Hpp. fold data in Hp, Hpp.
  split; [exact Hp|]. split; [exact Hpp|]. split.
  - rewrite nextPageParam_length, Hp. unfold windowPages.
    now rewrite length_map, length_seq.
  - rewrite Hp. apply windowPages_keys_NoDup.
Qed.

Lemma pages_follow_offsets_witness :
  let fetch := fixedUpstream fiveItems in
  let clock := [sampleNow; sampleNow + 1; sampleNow + 2; sampleNow + 3] in
  let data := fetchPages 0 fetch samplePreferences clock initialData in
  (forall request, fetch request = Success 200 (Some fiveItems))
  /\ Forall (fun now => localDay 0 now = localDay 0 sampleNow) clock
  /\ pageParams data = [0; 1; 2; 3]
  /\ NoDup (map groupKey (pages data)).
Proof.
  intros fetch clock data.
  assert (Hf : forall request, fetch request = Success 200 (Some fiveItems))
    by reflexivity.
  assert (Hc : Forall (fun now => localDay 0 now = localDay 0 sampleNow) clock)
    by (repeat constructor; vm_compute; reflexivity).
  destruct (pages_follow_offsets 0 fetch samplePreferences fiveItems sampleNow
              clock Hf Hc) as (_ & Hpp & _ & Hnd).
  split; [exact Hf | split; [exact Hc | split; [exact Hpp | exact Hnd]]].
Defined.

End PageExtras.

(** ** More on the bookmarks store *)

Module BookmarkExtras.
Import BookmarkFacts.

#[local] Set Warnings "-clear-no-such-hyp".

Lemma not_listed (repoId : Z) (state : BookmarksState) :
  idsMirrorList state -> isBookmarked repoId state = false ->
  forall r, In r (bookmarks state) -> id r <> repoId.
Proof.
  unfold idsMirrorList, isBookmarked. intros Hi Hb r Hin Heq.
  apply bool_decide_eq_false in Hb. apply Hb. rewrite Hi.
  apply elem_of_listedIds. eauto.
Qed.

Lemma filter_all (repoId : Z) (l : list Repository) :
  (forall r, In r l -> id r <> repoId) ->
  List.filter (fun r => negb (id r =? repoId)) l = l.
Proof.
  induction l as [|x l IH]; intros H; [reflexivity|]. cbn [List.filter].
  destruct (Z.eqb_spec (id x) repoId) as [Heq|_]; cbn [negb].
  - exfalso. apply (H x); [now left | exact Heq].
  - f_equal. apply IH. intros r Hr. apply H. now right.
Qed.

Lemma NoDup_ids_filter (p : Repository -> bool) (l : list Repository) :
  NoDup (map id l) -> NoDup (map id (List.filter p l)).
Proof.
  induction l as [|x l IH]; intros H; [constructor|].
  cbn [map] in H. apply NoDup_cons in H as [Hx Hl]. cbn [List.filter].
  destruct (p x); [|now apply IH].
  cbn [map]. apply NoDup_cons. split; [|now apply IH].
  intros Hin. apply Hx. apply list_elem_of_In, in_map_iff in Hin as (r & Hr & Hin).
  apply filter_In in Hin as [Hin _].
  apply list_elem_of_In, in_map_iff. eauto.
Qed.

Lemma NoDup_ids_add (repo : Repository) (state : BookmarksState) :
  idsMirrorList state -> isBookmarked (id repo) state = false ->
  NoDup (map id (bookmarks state)) ->
  NoDup (map id (bookmarks (addBookmark repo state))).
Proof.
  intros Hi Hb Hnd. cbn [addBookmark bookmarks map].
  apply NoDup_cons. split; [|exact Hnd].
  intros Hin. apply list_elem_of_In, in_map_iff in Hin as (r & Hr & Hin).
  exact (not_listed _ _ Hi Hb r Hin Hr).
Qed.

Lemma isBookmarked_add (i : Z) (repo : Repository) (state : BookmarksState) :
  isBookmarked i (addBookmark repo state)
  = (i =? id repo) || isBookmarked i state.
Proof.
  unfold isBookmarked, addBookmark. cbn [bookmarkedIds].
  destruct (Z.eqb_spec i (id repo)) as [->|Hne]; cbn [orb].
  - apply bool_decide_eq_true. set_solver.
  - apply bool_decide_ext. set_solver.
Qed.

Lemma isBookmarked_remove (i j : Z) (state : BookmarksState) :
  isBookmarked i (removeBookmark j state)
  = negb (i =? j) && isBookmarked i state.
Proof.
  unfold isBookmarked, removeBookmark. cbn [bookmarkedIds].
  destruct (Z.eqb_spec i j) as [->|Hne]; cbn [negb andb].
  - apply bool_decide_eq_false. rewrite elem_of_filter. tauto.
  - apply bool_decide_ext. rewrite elem_of_filter. tauto.
Qed.

Lemma isBookmarked_toggle (repo : Repository) (state : BookmarksState) :
  isBookmarked (id repo) (toggleBookmark repo state)
  = negb (isBookmarked (id repo) state).
Proof.
  unfold toggleBookmark. destruct (isBookmarked (id repo) state) eqn:E.
  - rewrite isBookmarked_remove, Z.eqb_refl. reflexivity.
  - rewrite isBookmarked_add, Z.eqb_refl. reflexivity.
Qed.

(** X10. What [isBookmarked] answers after each operation: adding makes
    the repository bookmarked, removing makes it not, and neither touches
    another repository; toggling inverts the answer. *)
Theorem isBookmarked_after (repoId : Z) (repo : Repository)
    (state : BookmarksState) :
  isBookmarked repoId (addBookmark repo state)
  = (repoId =? id repo) || isBookmarked repoId state
  /\ isBookmarked repoId (removeBookmark (id repo) state)
     = negb (repoId =? id repo) && isBookmarked repoId state
  /\ isBookmarked (id repo) (toggleBookmark repo state)
     = negb (isBookmarked (id repo) state).
Proof.
  split; [apply isBookmarked_add|].
  split; [apply isBookmarked_remove | apply isBookmarked_toggle].
Qed.

(** X11. Through [toggleBookmark] and [removeBookmark] no repository is
    ever listed twice, and then the length of the list, which the top bar
    shows as the number of bookmarks, is the size of the id set. *)
Theorem bookmarks_listed_once (repo : Repository) (repoId : Z)
    (state : BookmarksState) :
  idsMirrorList state -> NoDup (map id (bookmarks state)) ->
  NoDup (map id (bookmarks (toggleBookmark repo state)))
  /\ NoDup (map id (bookmarks (removeBookmark repoId state)))
  /\ length (bookmarks state) = size (bookmarkedIds state).
Proof.
  intros Hi Hnd. split; [|split].
  - unfold toggleBookmark. destruct (isBookmarked (id repo) state) eqn:E.
    + now apply NoDup_ids_filter.
    + now apply NoDup_ids_add.
  - now apply NoDup_ids_filter.
  - rewrite Hi. unfold listedIds. rewrite size_list_to_set by exact Hnd.
    now rewrite length_map.
Qed.

Lemma bookmarks_listed_once_witness :
  let state := toggleBookmark (sampleRepository 3)
                 (toggleBookmark (sampleRepository 7) initialState) in
  idsMirrorList state /\ NoDup (map id (bookmarks state))
  /\ NoDup (map id (bookmarks (toggleBookmark (sampleRepository 7) state)))
  /\ length (bookmarks state) = size (bookmarkedIds state).
Proof.
  intros state.
  assert (Hi : idsMirrorList state) by (vm_compute; reflexivity).
  assert (Hnd : NoDup (map id (bookmarks state)))
    by (vm_compute; repeat constructor; rewrite ?elem_of_cons, ?elem_of_nil;
        intuition discriminate).
  destruct (bookmarks_listed_once (sampleRepository 7) 3 state Hi Hnd)
    as (Ht & _ & Hlen).
  split; [exact Hi | split; [exact Hnd | split; [exact Ht | exact Hlen]]].
Defined.

(** X12. [addBookmark] itself does not look at the id set: called for a
    repository that is already bookmarked it lists the repository a second
    time, while the id set stays as it was. *)
Theorem addBookmark_lists_again (repo : Repository) (state : BookmarksState) :
  idsMirrorList state -> isBookmarked (id repo) state = true ->
  ~ NoDup (map id (bookmarks (addBookmark repo state)))
  /\ bookmarkedIds (addBookmark repo state) = bookmarkedIds state
  /\ length (bookmarks (addBookmark repo state)) = S (length (bookmarks state)).
Proof.
  unfold idsMirrorList, isBookmarked. intros Hi Hb.
  apply bool_decide_eq_true in Hb. split; [|split].
  - cbn [addBookmark bookmarks map]. rewrite NoDup_cons. intros [Hnot _].
    apply Hnot. rewrite Hi in Hb. unfold listedIds in Hb.
    now apply elem_of_list_to_set in Hb.
  - cbn [addBookmark bookmarkedIds]. set_solver.
  - reflexivity.
Qed.

Lemma addBookmark_lists_again_witness :
  let state := addBookmark (sampleRepository 7) initialState in
  idsMirrorList state /\ isBookmarked 7 state = true
  /\ length (bookmarks (addBookmark (sampleRepository 7) state)) = 2%nat.
Proof.
  intros state.
  assert (Hi : idsMirrorList state) by (vm_compute; reflexivity).
  assert (Hb : isBookmarked (id (sampleRepository 7)) state = true)
    by (vm_compute; reflexivity).
  split; [exact Hi | split; [exact Hb |]].
  destruct (addBookmark_lists_again (sampleRepository 7) state Hi Hb)
    as (_ & _ & Hlen).
  exact Hlen.
Defined.

(** X13. Toggling a repository that is not bookmarked twice gives back
    the very state: the list, the id set and the notes are as before. *)
Theorem toggleBookmark_twice (repo : Repository) (state : BookmarksState) :
  storeInvariant state -> isBookmarked (id repo) state = false ->
  toggleBookmark repo (toggleBookmark repo state) = state.
Proof.
  intros [Hi Hn] Hb.
  pose proof (isBookmarked_toggle repo state) as Ht.
  unfold toggleBookmark at 1. rewrite Ht, Hb. cbn [negb].
  unfold toggleBookmark. rewrite Hb.
  destruct state as [bs ids ns lv seen].
  unfold removeBookmark, addBookmark. cbn [bookmarks bookmarkedIds notes lastVisit seenRepoIds].
  unfold isBookmarked in Hb. cbn in Hb. apply bool_decide_eq_false in Hb.
  f_equal.
  - cbn [List.filter]. rewrite Z.eqb_refl. cbn [negb].
    apply filter_all. intros r Hin Heq. apply Hb.
    unfold idsMirrorList in Hi. cbn in Hi. rewrite Hi.
    apply elem_of_list_to_set, list_elem_of_In, in_map_iff. eauto.
  - apply set_eq. intros x. rewrite elem_of_filter. set_solver.
  - apply delete_id. apply not_elem_of_dom. intros Hd. apply Hb.
    unfold notesOnBookmarked in Hn. cbn in Hn. now apply Hn.
Qed.

Lemma toggleBookmark_twice_witness :
  let state := setNote 3 (lit "kept")
                 (toggleBookmark (sampleRepository 3) initialState) in
  storeInvariant state /\ isBookmarked 7 state = false
  /\ toggleBookmark (sampleRepository 7) (toggleBookmark (sampleRepository 7) state)
     = state.
Proof.
  intros state.
  assert (Hinv : storeInvariant state).
  { split; vm_compute; [reflexivity|]. intros x.
    destruct x as [|p|p]; try (intros H; discriminate H).
    repeat (destruct p as [p|p|]; try (intros H; discriminate H)); auto. }
  assert (Hb : isBookmarked (id (sampleRepository 7)) state = false)
    by (vm_compute; reflexivity).
  split; [exact Hinv | split; [exact Hb |]].
  apply (toggleBookmark_twice (sampleRepository 7) state Hinv Hb).
Defined.

(** X14. A note is kept per repository: setting the note of one leaves
    the notes of the others, the list and the id set as they are, and a
    second note for the same repository replaces the first. *)
Theorem setNote_is_local (i j : Z) (note note' : jsstring)
    (state : BookmarksState) :
  getNote j (setNote i note state)
  = (if i =? j then (if blank note then None else Some note)
     else getNote j state)
  /\ setNote i note' (setNote i note state) = setNote i note' state
  /\ bookmarks (setNote i note state) = bookmarks state
  /\ bookmarkedIds (setNote i note state) = bookmarkedIds state.
Proof.
  split; [|split; [|split; reflexivity]].
  - destruct (Z.eqb_spec i j) as [->|Hne]; [apply lookup_setNote|].
    unfold getNote, setNote. cbn [notes].
    destruct (truthy (trim note)).
    + now apply lookup_insert_ne.
    + now apply lookup_delete_ne.
  - unfold setNote. cbn [notes bookmarks bookmarkedIds lastVisit seenRepoIds].
    f_equal. destruct (truthy (trim note')), (truthy (trim note)).
    + apply insert_insert_eq.
    + apply insert_delete_eq.
    + apply delete_insert_eq.
    + apply delete_delete_eq.
Qed.

(** X15. A repository is new until it has been marked as seen, and
    stays seen: after [markAsSeen] a repository is new exactly when it was
    new before and is not among the ids given; marking twice is marking
    the two lists at once. *)
Theorem markAsSeen_isNew (i : Z) (ids ids' : list Z) (state : BookmarksState) :
  isNew i (markAsSeen ids state)
  = isNew i state && negb (bool_decide (i ∈ ids))
  /\ markAsSeen ids' (markAsSeen ids state) = markAsSeen (ids ++ ids') state.
Proof.
  split.
  - unfold isNew, markAsSeen. cbn [seenRepoIds].
    rewrite <- negb_orb. f_equal.
    destruct (bool_decide (i ∈ seenRepoIds state)) eqn:E1,
             (bool_decide (i ∈ ids)) eqn:E2; cbn [orb];
      try apply bool_decide_eq_true; try apply bool_decide_eq_false;
      try apply bool_decide_eq_true in E1; try apply bool_decide_eq_false in E1;
      try apply bool_decide_eq_true in E2; try apply bool_decide_eq_false in E2;
      set_solver.
  - unfold markAsSeen. cbn [seenRepoIds bookmarks bookmarkedIds notes lastVisit].
    f_equal. rewrite list_to_set_app_L. set_solver.
Qed.

(** X16. Once the feed has run its effect, none of the loaded
    repositories is new, and a repository seen before is still seen. *)
Theorem loaded_repositories_are_seen (data : option InfiniteData)
    (state : BookmarksState) :
  Forall (fun r => isNew (id r) (markLoadedAsSeen data state) = false)
         (allRepos data)
  /\ (forall i, isNew i state = false ->
                isNew i (markLoadedAsSeen data state) = false).
Proof.
  unfold markLoadedAsSeen. split.
  - apply List.Forall_forall. intros r Hin.
    destruct (allRepos data) as [|x l] eqn:E; [destruct Hin|].
    cbn [length Nat.ltb Nat.leb]. unfold isNew, markAsSeen. cbn [seenRepoIds].
    apply negb_false_iff, bool_decide_eq_true, elem_of_union_r,
      elem_of_list_to_set, list_elem_of_In, in_map, Hin.
  - intros i Hi. destruct (0 <? length (allRepos data))%nat; [|exact Hi].
    unfold isNew, markAsSeen in *. cbn [seenRepoIds].
    apply negb_false_iff, bool_decide_eq_true in Hi.
    apply negb_false_iff, bool_decide_eq_true. set_solver.
Qed.

(** *** Persistence *)

Lemma size_list_to_set_le (l : list Z) :
  (size (list_to_set l : gset Z) <= length l)%nat.
Proof.
  induction l as [|x l IH]; cbn [list_to_set length].
  - rewrite size_empty. lia.
  - rewrite size_union_alt, size_singleton.
    pose proof (subseteq_size (list_to_set l ∖ {[x]} : gset Z) (list_to_set l)
                  ltac:(set_solver)).
    lia.
Qed.

Lemma mapOfEntries_map_to_list (m : gmap Z jsstring) :
  mapOfEntries (map_to_list m) = m.
Proof.
  unfold mapOfEntries. rewrite <- (list_to_map_to_list m) at 2.
  symmetry. apply list_to_map_proper.
  - apply NoDup_fst_map_to_list.
  - apply Permutation_rev.
Qed.

Lemma restored_always (state current : BookmarksState) :
  bookmarks (merge (partialize state) current) = bookmarks state
  /\ bookmarkedIds (merge (partialize state) current) = bookmarkedIds state
  /\ notes (merge (partialize state) current) = notes state.
Proof.
  unfold merge, partialize.
  cbn [ps_bookmarks ps_bookmarkedIds ps_notes bookmarks bookmarkedIds notes default].
  split; [reflexivity|]. split.
  - apply list_to_set_elements_L.
  - apply mapOfEntries_map_to_list.
Qed.

(** X17. Writing the store and reading it back restores it: the list,
    the id set, the notes, the last visit and the seen ids come back as
    they were, as long as no more than 1000 ids have been seen (and the
    last visit is not the empty string). *)
Theorem persist_round_trip (state current : BookmarksState) :
  (size (seenRepoIds state) <= 1000)%nat ->
  lastVisit state <> Some [] ->
  merge (partialize state) current = state.
Proof.
  intros Hsize Hlast.
  destruct (restored_always state current) as (Hb & Hi & Hn).
  destruct state as [bs ids ns lv seen].
  unfold merge, partialize in *.
  cbn [ps_bookmarks ps_bookmarkedIds ps_notes ps_lastVisit ps_seenRepoIds
       bookmarks bookmarkedIds notes lastVisit seenRepoIds default] in *.
  f_equal; try assumption.
  - destruct lv as [[|c l]|]; try reflexivity. exfalso. now apply Hlast.
  - unfold lastN. replace (length (elements seen) - 1000)%nat with 0%nat by
      (unfold size, set_size in Hsize; cbn in Hsize; lia).
    cbn [skipn]. apply list_to_set_elements_L.
Qed.

Lemma persist_round_trip_witness :
  let state := markAsSeen [1; 2; 3]
                 (setNote 7 (lit "read later")
                    (toggleBookmark (sampleRepository 7) initialState)) in
  (size (seenRepoIds state) <= 1000)%nat /\ lastVisit state <> Some []
  /\ merge (partialize state) initialState = state.
Proof.
  intros state.
  assert (Hs : (size (seenRepoIds state) <= 1000)%nat) by (vm_compute; lia).
  assert (Hl : lastVisit state <> Some []) by discriminate.
  split; [exact Hs | split; [exact Hl |]].
  apply (persist_round_trip state initialState Hs Hl).
Defined.

(** X18. Whatever the size of the store, reading back never restores an
    id that was not seen and never more than 1000 of them; the list, the
    id set and the notes always come back whole. *)
Theorem persist_keeps_at_most_1000 (state current : BookmarksState) :
  let restored := merge (partialize state) current in
  seenRepoIds restored ⊆ seenRepoIds state
  /\ (size (seenRepoIds restored) <= 1000)%nat
  /\ bookmarks restored = bookmarks state
  /\ bookmarkedIds restored = bookmarkedIds state
  /\ notes restored = notes state.
Proof.
  intros restored. subst restored.
  split; [|split; [|apply restored_always]].
  - unfold merge, partialize. cbn [ps_seenRepoIds seenRepoIds default from_option Datatypes.id].
    intros x. rewrite elem_of_list_to_set. unfold lastN. intros Hx.
    apply (subseteq_drop _ _ x) in Hx. now apply elem_of_elements.
  - unfold merge, partialize. cbn [ps_seenRepoIds seenRepoIds default from_option Datatypes.id].
    pose proof (size_list_to_set_le (lastN 1000 (elements (seenRepoIds state))))
      as H.
    unfold lastN in *. rewrite length_skipn in H. lia.
Qed.

End BookmarkExtras.

(** ** More on the RSS feed *)

Module RssExtras.
Import RssFacts.

Lemma escapeChar_inj_app (x y : N) (a b : jsstring) :
  escapeChar x ++ a = escapeChar y ++ b -> x = y /\ a = b.
Proof.
  unfold escapeChar, c_amp, c_lt, c_gt, c_quot, c_apos.
  destruct (N.eqb_spec x 38) as [->|?]; [|destruct (N.eqb_spec x 60) as [->|?];
    [|destruct (N.eqb_spec x 62) as [->|?]; [|destruct (N.eqb_spec x 34) as [->|?];
      [|destruct (N.eqb_spec x 39) as [->|?]]]]];
  (destruct (N.eqb_spec y 38) as [->|?]; [|destruct (N.eqb_spec y 60) as [->|?];
    [|destruct (N.eqb_spec y 62) as [->|?]; [|destruct (N.eqb_spec y 34) as [->|?];
      [|destruct (N.eqb_spec y 39) as [->|?]]]]]);
  cbn; intros H; try discriminate H; injection H; intros; subst;
    try contradiction; auto.
Qed.

Lemma escapeChar_nonempty (c : N) : escapeChar c <> [].
Proof.
  destruct (escapeChar_cases c) as [[_ He]|[_ ->]]; [|discriminate].
  destruct (entity_shape _ He) as (t & -> & _). discriminate.
Qed.

Lemma escapeChar_length (c : N) :
  (if isSpecial c then 4 <= length (escapeChar c)
   else length (escapeChar c) = 1)%nat.
Proof.
  unfold escapeChar, isSpecial.
  destruct (c =? c_amp)%N; [cbn; lia|].
  destruct (c =? c_lt)%N; [cbn; lia|].
  destruct (c =? c_gt)%N; [cbn; lia|].
  destruct (c =? c_quot)%N; [cbn; lia|].
  destruct (c =? c_apos)%N; cbn; lia.
Qed.

(** X19. [escapeXml] loses nothing: two texts with the same escaped
    form are the same text. *)
Theorem escapeXml_injective (a b : jsstring) :
  escapeXml a = escapeXml b -> a = b.
Proof.
  rewrite !escapeXml_single_pass. revert b.
  induction a as [|x a IH]; intros [|y b] H; cbn [map concat] in H.
  - reflexivity.
  - exfalso. symmetry in H. apply app_eq_nil in H as [H _].
    exact (escapeChar_nonempty _ H).
  - exfalso. apply app_eq_nil in H as [H _]. exact (escapeChar_nonempty _ H).
  - apply escapeChar_inj_app in H as [-> H]. f_equal. now apply IH.
Qed.

Lemma escapeXml_injective_witness :
  escapeXml (lit "a<b") = escapeXml (concat [lit "a"; [c_lt]; lit "b"])
  /\ lit "a<b" = concat [lit "a"; [c_lt]; lit "b"].
Proof.
  assert (H : escapeXml (lit "a<b") = escapeXml (concat [lit "a"; [c_lt]; lit "b"]))
    by reflexivity.
  split; [exact H | apply (escapeXml_injective _ _ H)].
Defined.

(** X20. Escaping never shortens a text, and it leaves a text as it is
    exactly when the text holds none of the five special characters. *)
Theorem escapeXml_plain_text (text : jsstring) :
  (length text <= length (escapeXml text))%nat
  /\ (escapeXml text = text <-> existsb isSpecial text = false).
Proof.
  rewrite escapeXml_single_pass.
  assert (Hlen : (length text <= length (concat (map escapeChar text)))%nat
                 /\ (existsb isSpecial text = true ->
                     length text < length (concat (map escapeChar text)))%nat).
  { induction text as [|c text [IH1 IH2]]; cbn [map concat existsb length].
    - split; [lia | discriminate].
    - rewrite length_app. pose proof (escapeChar_length c) as Hc.
      destruct (isSpecial c); cbn [orb]; split; try lia.
      intros H. specialize (IH2 H). lia. }
  split; [apply Hlen|]. split.
  - intros Heq. destruct (existsb isSpecial text) eqn:E; [|reflexivity].
    destruct Hlen as [_ Hlt]. specialize (Hlt eq_refl). rewrite Heq in Hlt. lia.
  - clear Hlen. induction text as [|c text IH]; [reflexivity|].
    cbn [existsb map concat]. intros H. apply orb_false_elim in H as [Hc Ht].
    destruct (escapeChar_cases c) as [[Hs _]|[_ ->]]; [congruence|].
    cbn [app]. f_equal. now apply IH.
Qed.

Section Feed.
Variable host : Host.

Lemma feedItem_link (repo : Repository) :
  contains (element "link" (html_url repo)) (feedItem host repo).
Proof. unfold feedItem. find_piece. Qed.

Lemma feedItem_description (repo : Repository) :
  contains
    (lit "<description><![CDATA["
       ++ (if truthyOpt (description repo) then default [] (description repo)
           else lit "No description"))
    (feedItem host repo).
Proof.
  unfold feedItem. do 7 apply contains_app_r.
  rewrite (app_assoc (lit "<description><![CDATA[")). apply contains_here.
Qed.

Lemma generateRSSFeed_nonempty (repositories : list Repository)
    (options : RSSOptions) :
  generateRSSFeed host repositories options <> [].
Proof. unfold generateRSSFeed. discriminate. Qed.

End Feed.

(** X21. The link and the description of a repository go into the feed
    as they are, without escaping: the description follows the opening of
    its CDATA section character for character. *)
Theorem feed_link_and_description_verbatim (host : Host)
    (repositories : list Repository) (options : RSSOptions) :
  let feed := generateRSSFeed host repositories options in
  Forall (fun repo =>
    contains (element "link" (html_url repo)) feed
    /\ contains (lit "<description><![CDATA["
                   ++ (if truthyOpt (description repo)
                       then default [] (description repo)
                       else lit "No description")) feed)
    repositories.
Proof.
  cbv zeta. apply List.Forall_forall. intros repo Hin.
  pose proof (feed_items host repositories options repo Hin) as Hitem.
  split; eapply contains_trans; eauto using feedItem_link, feedItem_description.
Qed.

(** X22. The feed of the RSS page is the empty string exactly when no
    repository is loaded; otherwise it holds the item of each of the first
    50 loaded repositories, under a title that names the language chosen,
    or all languages when none is. *)
Theorem rssFeed_page (host : Host) (data : option InfiniteData)
    (language : jsstring) (dateJump : DateJump) :
  let feed := rssFeed host data language dateJump in
  (feed = [] <-> allRepos data = [])
  /\ Forall (fun repo => contains (feedItem host repo) feed)
            (firstn 50 (allRepos data))
  /\ (allRepos data <> [] ->
      contains (element "title"
                  (escapeXml (if truthy language
                              then lit "GitHunt - " ++ language
                              else lit "GitHunt - All Languages"))) feed).
Proof.
  cbv zeta. unfold rssFeed, feedRepos.
  destruct (allRepos data) as [|r l] eqn:E.
  - cbn. split; [tauto|]. split; [constructor | congruence].
  - cbn [firstn length Nat.eqb]. split; [|split].
    + split; [|discriminate]. intros H.
      exfalso. exact (generateRSSFeed_nonempty host _ _ H).
    + apply List.Forall_forall. intros repo Hin. now apply feed_items.
    + intros _.
      match goal with
      | |- contains _ (generateRSSFeed ?h ?rs ?o) =>
          pose proof (feed_title h rs o) as Ht
      end.
      cbn [Rss.languages] in Ht. destruct (truthy language); exact Ht.
Qed.

End RssExtras.

(** ** Preferences, the feed page and the repository preview *)

Module UiExtras.
Import BookmarkFacts.
Import PreferencesStore.

#[local] Set Warnings "-clear-no-such-hyp".

(** X23. The store never holds more than five languages: [setLanguages]
    cuts its argument to five, and [toggleLanguage] adds a sixth to no
    list of five. *)
Theorem at_most_five_languages (l : jsstring) (ls : list jsstring)
    (s : PreferencesState) :
  (length (languages s) <= 5)%nat ->
  (length (languages (setLanguages ls s)) <= 5)%nat
  /\ (length (languages (toggleLanguage l s)) <= 5)%nat
  /\ languages (clearLanguages s) = []
  /\ languages (setLanguages ls s) = firstn 5 ls.
Proof.
  intros H. split; [|split; [|split; reflexivity]].
  - cbn [setLanguages withLanguages languages]. rewrite length_firstn. lia.
  - unfold toggleLanguage. destruct (bool_decide (l ∈ languages s)).
    + cbn [withLanguages languages].
      pose proof (length_filter (fun x => x ≠ l) (languages s)). lia.
    + destruct (Nat.ltb_spec (length (languages s)) 5); [|exact H].
      cbn [withLanguages languages]. rewrite length_app. cbn [length]. lia.
Qed.

Lemma at_most_five_languages_witness :
  let s := setLanguages (map lit ["a"; "b"; "c"; "d"; "e"; "f"; "g"]%string)
             defaults in
  (length (languages s) <= 5)%nat
  /\ languages s = map lit ["a"; "b"; "c"; "d"; "e"]%string
  /\ (length (languages (toggleLanguage (lit "z") s)) <= 5)%nat.
Proof.
  intros s.
  assert (H : (length (languages s) <= 5)%nat) by (cbn; lia).
  split; [exact H | split; [reflexivity |]].
  apply (at_most_five_languages (lit "z") [] s H).
Defined.



(** X25. Toggling a language that is not selected, while there is room,
    and toggling it again gives back the very preferences. *)
Theorem toggleLanguage_twice (l : jsstring) (s : PreferencesState) :
  (l ∉ languages s) -> (length (languages s) < 5)%nat ->
  toggleLanguage l (toggleLanguage l s) = s.
Proof.
  intros Hl Hlen. unfold toggleLanguage at 2.
  rewrite bool_decide_eq_false_2 by exact Hl.
  destruct (Nat.ltb_spec (length (languages s)) 5); [|lia].
  unfold toggleLanguage. cbn [withLanguages languages].
  rewrite bool_decide_eq_true_2 by (rewrite elem_of_app, list_elem_of_singleton; auto).
  destruct s. unfold withLanguages. cbn. f_equal.
  cbn in Hl. rewrite filter_app, filter_cons_False, filter_nil, app_nil_r by tauto.
  clear Hlen H. induction languages0 as [|y ys IH]; [reflexivity|].
  apply not_elem_of_cons in Hl as [Hne Hl].
  rewrite filter_cons_True by congruence. f_equal. now apply IH.
Qed.

Lemma toggleLanguage_twice_witness :
  (lit "Rust" ∉ languages defaults) /\ (length (languages defaults) < 5)%nat
  /\ toggleLanguage (lit "Rust") (toggleLanguage (lit "Rust") defaults) = defaults.
Proof.
  assert (H1 : lit "Rust" ∉ languages defaults) by (cbn; apply not_elem_of_nil).
  assert (H2 : (length (languages defaults) < 5)%nat) by (cbn; lia).
  split; [exact H1 | split; [exact H2 |]].
  apply (toggleLanguage_twice (lit "Rust") defaults H1 H2).
Defined.

(** X26. The theme button walks from system to light, from light to dark
    and from dark back to system: each press changes the theme and nothing
    else, and three presses restore the preferences. *)
Theorem cycleTheme_period_three (s : PreferencesState) :
  cycleTheme (cycleTheme (cycleTheme s)) = s
  /\ theme (cycleTheme s)
     = match theme s with
       | theme_system => theme_light
       | theme_light => theme_dark
       | theme_dark => theme_system
       end
  /\ theme (cycleTheme s) <> theme s
  /\ cycleTheme s = setTheme (theme (cycleTheme s)) s.
Proof.
  destruct s as [th ? ? ? ? ? ? ? ? ? ? ? ?].
  destruct th; repeat split; discriminate.
Qed.

(** X27. Keyboard navigation stays on the list: from the index of a
    loaded repository, moving up or down gives the index of a loaded
    repository again, so there is always a focused repository; away from
    the ends the two moves undo each other. *)
Theorem navigation_stays_in_range (repos : list Repository) (i : Z) :
  0 <= i < Z.of_nat (length repos) ->
  0 <= onNavigateUp i < Z.of_nat (length repos)
  /\ 0 <= onNavigateDown repos i < Z.of_nat (length repos)
  /\ is_Some (focusedRepo repos (onNavigateUp i))
  /\ is_Some (focusedRepo repos (onNavigateDown repos i))
  /\ (0 < i -> onNavigateDown repos (onNavigateUp i) = i)
  /\ (i < Z.of_nat (length repos) - 1 -> onNavigateUp (onNavigateDown repos i) = i).
Proof.
  intros H. unfold onNavigateUp, onNavigateDown.
  assert (Hfocus : forall j, 0 <= j < Z.of_nat (length repos) ->
                             is_Some (focusedRepo repos j)).
  { intros j Hj. unfold focusedRepo. destruct (Z.ltb_spec j 0); [lia|].
    apply lookup_lt_is_Some. lia. }
  repeat split; try lia; try (apply Hfocus; lia).
Qed.

Lemma navigation_stays_in_range_witness :
  let repos := items fiveItems in
  0 <= 4 < Z.of_nat (length repos)
  /\ onNavigateDown repos 4 = 4 /\ onNavigateUp 4 = 3
  /\ is_Some (focusedRepo repos (onNavigateDown repos 4)).
Proof.
  intros repos.
  assert (H : 0 <= 4 < Z.of_nat (length repos)) by (cbn; lia).
  destruct (navigation_stays_in_range repos 4 H) as (_ & _ & _ & Hf & _).
  split; [exact H | split; [reflexivity | split; [reflexivity | exact Hf]]].
Defined.

(** X28. On a feed without repositories moving down leaves the list: the
    index becomes -1 and no repository is focused; moving up brings the
    index back to 0. *)
Theorem navigation_on_empty_feed (i : Z) :
  0 <= i ->
  onNavigateDown [] i = -1
  /\ focusedRepo [] (onNavigateDown [] i) = None
  /\ onNavigateUp (onNavigateDown [] i) = 0.
Proof.
  intros H. unfold onNavigateDown, onNavigateUp. cbn [length].
  replace (Z.min (Z.of_nat 0 - 1) (i + 1)) with (-1) by lia.
  repeat split.
Qed.

Lemma navigation_on_empty_feed_witness :
  0 <= 0 /\ onNavigateDown [] 0 = -1 /\ focusedRepo [] (-1) = None.
Proof.
  split; [lia|]. destruct (navigation_on_empty_feed 0 ltac:(lia)) as (Hd & Hf & _).
  split; [exact Hd | reflexivity].
Defined.

(** X29. The README preview is the text itself when it has at most 5000
    code units, and otherwise its first 5000 followed by the truncation
    mark of 28 code units: it never exceeds 5028 code units and always
    starts as the text does. *)
Theorem readme_preview (fetch : ReadmeRequest -> TextResponse)
    (owner repo : jsstring) (token : option jsstring) (status : Z)
    (text : jsstring) :
  fetch (readmeRequest owner repo token) = TextOk status text ->
  exists preview,
    fetchReadme fetch owner repo token = Fulfilled preview
    /\ (length preview <= 5000 + 28)%nat
    /\ firstn 5000 preview = firstn 5000 text
    /\ ((length text <= 5000)%nat -> preview = text).
Proof.
  intros H. unfold fetchReadme. rewrite H.
  assert (Hmark : length truncatedMark = 28%nat) by reflexivity.
  destruct (Nat.ltb_spec 5000 (length text)) as [Hlong|Hshort].
  - eexists. split; [reflexivity|]. split; [|split].
    + rewrite length_app, length_firstn, Hmark. lia.
    + rewrite firstn_app, length_firstn.
      replace (5000 - Init.Nat.min 5000 (length text))%nat with 0%nat by lia.
      cbn [firstn]. rewrite app_nil_r. apply firstn_firstn.
    + lia.
  - eexists. split; [reflexivity|]. split; [lia | split; [reflexivity | auto]].
Qed.

Lemma readme_preview_witness :
  let text := repeat 97%N (6 * 1000) in
  let fetch := fun _ : ReadmeRequest => TextOk 200 text in
  fetch (readmeRequest (lit "o") (lit "r") None) = TextOk 200 text
  /\ exists preview,
       fetchReadme fetch (lit "o") (lit "r") None = Fulfilled preview
       /\ (length preview <= 5000 + 28)%nat
       /\ firstn 5000 preview = firstn 5000 text
       /\ ((length text <= 5000)%nat -> preview = text).
Proof.
  intros text fetch.
  assert (H : fetch (readmeRequest (lit "o") (lit "r") None) = TextOk 200 text)
    by reflexivity.
  split; [exact H|].
  exact (readme_preview fetch (lit "o") (lit "r") None 200 text H).
Defined.

(** X30. Notes written through the note editor never exceed 500 code
    units: if every stored note is that short, it is still so after a
    change in the editor, and toggling or removing a bookmark keeps it
    so. *)
Theorem notes_at_most_500 (repository : Repository) (value : jsstring)
    (repoId : Z) (state : BookmarksState) :
  map_Forall (fun _ note => (length note <= 500)%nat) (notes state) ->
  map_Forall (fun _ note => (length note <= 500)%nat)
             (notes (onNoteChange repository value state))
  /\ map_Forall (fun _ note => (length note <= 500)%nat)
                (notes (toggleBookmark repository state))
  /\ map_Forall (fun _ note => (length note <= 500)%nat)
                (notes (removeBookmark repoId state))
  /\ getNote (id repository) (onNoteChange repository value state)
     = (if blank (firstn 500 value) then None else Some (firstn 500 value)).
Proof.
  intros H. split; [|split; [|split]].
  - unfold onNoteChange, setNote. cbn [notes].
    destruct (truthy (trim (firstn 500 value))).
    + apply map_Forall_insert_2; [|exact H]. rewrite length_firstn. lia.
    + now apply map_Forall_delete.
  - unfold toggleBookmark. destruct (isBookmarked (id repository) state).
    + cbn [removeBookmark notes]. now apply map_Forall_delete.
    + exact H.
  - cbn [removeBookmark notes]. now apply map_Forall_delete.
  - apply lookup_setNote.
Qed.

Lemma notes_at_most_500_witness :
  let state := addBookmark (sampleRepository 7) initialState in
  map_Forall (fun _ note => (length note <= 500)%nat) (notes state)
  /\ getNote 7 (onNoteChange (sampleRepository 7) (repeat 97%N 600) state)
     = Some (repeat 97%N 500).
Proof.
  intros state.
  assert (H : map_Forall (fun _ note => (length note <= 500)%nat) (notes state))
    by apply map_Forall_empty.
  split; [exact H|].
  destruct (notes_at_most_500 (sampleRepository 7) (repeat 97%N 600) 7 state H)
    as (_ & _ & _ & Hg).
  exact Hg.
Defined.

End UiExtras.
